(** * Terminal key decoding: a shallow embedding of the xterm decoders

    The decoders of the repository turn a raw chunk of bytes read from a
    terminal into key events.  This development embeds

    - [decodeXTermUtf8Key], [modifierKeypress],
      [decodeXTermSS3FunctionKeys] and [decodeXTermCSIFunctionKeys]
      (the xterm keyboard decoder module),
    - the dispatcher and the splitter that module imports, after the
      specification, and
    - the older stand-alone decoder of [src/decode.ts] (module
      [Standalone]),

    and states the properties of the specification over them.  A decoder
    is a function from the buffer to the return statement it reaches;
    [decodeBuffer] carries the statement out, calling itself on the rest
    of the buffer. *)

From Stdlib Require Import String Ascii DecimalString ZArith List Bool Lia.
Import ListNotations.

Local Open Scope Z_scope.

(** ** Byte names *)

(** Modelled from the spec: [chars.ts], from which the decoder module
    imports [Char], is not among the sources.  The values are those of the
    byte classification table of the specification; they agree with the
    [const enum Char] of [src/decode.ts], which has every name the decoders
    use. *)

Module Char.
Definition NULL : Z := 0.
Definition Backspace : Z := 8.
Definition Tab : Z := 9.
Definition LF : Z := 10.
Definition CR : Z := 13.
Definition CANCEL : Z := 24.
Definition ESC : Z := 27.
Definition SPACE : Z := 32.
Definition bang : Z := 33.       (* "!" *)
Definition semicolon : Z := 59.  (* ";" *)
Definition n0 : Z := 48.         (* "0n" *)
Definition n1 : Z := 49.
Definition n2 : Z := 50.
Definition n3 : Z := 51.
Definition n4 : Z := 52.
Definition n5 : Z := 53.
Definition n6 : Z := 54.
Definition n7 : Z := 55.
Definition n8 : Z := 56.
Definition n9 : Z := 57.
Definition at_ : Z := 64.        (* "@" *)
Definition A : Z := 65.
Definition B : Z := 66.
Definition C : Z := 67.
Definition D : Z := 68.
Definition F : Z := 70.
Definition H : Z := 72.
Definition M : Z := 77.
Definition O : Z := 79.
Definition Z_ : Z := 90.         (* "Z" *)
Definition lbracket : Z := 91.   (* "[" *)
Definition a : Z := 97.
Definition s : Z := 115.
Definition z : Z := 122.
Definition tilde : Z := 126.     (* "~" *)
Definition DEL : Z := 127.
End Char.

(** ** JavaScript values used by the decoders *)

(** A [Uint8Array]: its elements are numbers in [0, 255]. *)
Definition Uint8Array := list Z.

Definition is_u8 (b : Z) : bool := (0 <=? b) && (b <=? 255).
Definition wf_buffer (buffer : Uint8Array) : bool := forallb is_u8 buffer.

(** The value of [buffer[i]] and of arithmetic on it: [None] stands for
    [undefined] and for [NaN], which behave alike under every operator the
    decoders apply (comparisons are false, [!==] is true, [-] gives [NaN],
    [&] gives 0). *)
Definition num := option Z.

Definition idx (buffer : Uint8Array) (i : nat) : num := nth_error buffer i.
Arguments idx : simpl never.

(** [x === c] (and [x == c], which agrees on these operands). *)
Definition jeq (x : num) (c : Z) : bool :=
  match x with Some v => v =? c | None => false end.
(** [x !== c] *)
Definition jne (x : num) (c : Z) : bool := negb (jeq x c).
(** [x >= c], [x <= c], [x > c], [x < c] *)
Definition jge (x : num) (c : Z) : bool :=
  match x with Some v => c <=? v | None => false end.
Definition jle (x : num) (c : Z) : bool :=
  match x with Some v => v <=? c | None => false end.
Definition jgt (x : num) (c : Z) : bool :=
  match x with Some v => c <? v | None => false end.
Definition jlt (x : num) (c : Z) : bool :=
  match x with Some v => v <? c | None => false end.
(** [x - c] *)
Definition jsub (x : num) (c : Z) : num := option_map (fun v => v - c) x.
(** [x + c] *)
Definition jadd (x : num) (c : Z) : num := option_map (fun v => v + c) x.
(** [!!(x & c)] *)
Definition jbit (x : num) (c : Z) : bool :=
  match x with Some v => negb (Z.land v c =? 0) | None => false end.

(** A JavaScript string, as the list of its code points. *)
Definition jsstring := list Z.

Definition str (s : string) : jsstring :=
  map (fun c => Z.of_N (N_of_ascii c)) (list_ascii_of_string s).

(** [String.fromCharCode(c)] for a byte. *)
Definition fromCharCode (c : Z) : jsstring := [c].

Definition jsstring_eqb (s t : jsstring) : bool :=
  if list_eq_dec Z.eq_dec s t then true else false.

(** Number to string, as a template literal does it. *)
Definition toString (x : num) : jsstring :=
  match x with
  | Some v => str (NilZero.string_of_int (Z.to_int v))
  | None => str "NaN"
  end.

(** [`f${fKey}`] *)
Definition fname (fKey : num) : jsstring := str "f" ++ toString fKey.

(** ** Key events *)

Record KeyEvent := mkKeyEvent {
  key : jsstring;
  shift : bool;
  ctrl : bool;
  alt : bool;
  meta : bool
}.

(** Modelled from the spec: [keyEvent] of [shared.ts] is not among the
    sources.  It builds the event for a key from the modifiers given, every
    modifier left out being [false]; the decoders receive it wrapped in a
    one-element array, which the return statements below account for. *)
Definition keyEvent (k : jsstring) (shift ctrl alt meta : bool) : KeyEvent :=
  mkKeyEvent k shift ctrl alt meta.

(** [keyEvent(key)] with no modifiers. *)
Definition plainKey (k : jsstring) : KeyEvent :=
  keyEvent k false false false false.

(** ** Modifier resolver *)

(** [modifierKeypress] of the xterm decoder module. *)
Definition modifierKeypress (k : jsstring) (modifiers : num) : KeyEvent :=
  let modifiers := jsub modifiers (Char.n0 + 1) in
  let meta := jeq modifiers 0 || jbit modifiers 8 in
  let shift := jbit modifiers 1 in
  let alt := jbit modifiers 2 in
  let ctrl := jbit modifiers 4 in
  keyEvent k shift ctrl alt meta.

(** ** The stand-alone decoder of [src/decode.ts]

    An older decoder, complete in itself: it returns one key press for the
    whole buffer and names the key [unknown <n>] where it finds none.  The
    xterm decoder module does not use it. *)
Module Standalone.
Definition keyPress (k : jsstring) (shift ctrl meta alt : bool) : KeyEvent :=
  mkKeyEvent k shift ctrl alt meta.

Definition modifierKeypress (k : jsstring) (modifiers : num) : KeyEvent :=
  let modifiers := jsub modifiers 49 in
  let meta := jeq modifiers 0 in
  let shift := jbit modifiers 1 in
  let alt := jbit modifiers 2 in
  let ctrl := jbit modifiers 4 in
  keyPress k shift ctrl meta alt.

(** [fKey > 0 && fKey < 5] *)
Definition isF1toF4 (fKey : num) : bool := jgt fKey 0 && jlt fKey 5.

(** [if (fKey > limit) fKey--] *)
Definition skipAbove (limit : Z) (fKey : num) : num :=
  if jgt fKey limit then jsub fKey 1 else fKey.

(** All "normal" ASCII characters, and the final [unknown <end>]. *)
Definition decodeAscii (buffer : Uint8Array) : KeyEvent :=
  if jlt (idx buffer 0) Char.DEL then
    let alt :=
      (1 <? length buffer)%nat
      && (jeq (idx buffer 0) Char.ESC || jeq (idx buffer 3) Char.ESC) in
    let meta :=
      jeq (idx buffer 0) Char.CANCEL && jeq (idx buffer 1) Char.at_
      && jeq (idx buffer 2) Char.s in
    match idx buffer ((if alt then 1 else 0) + (if meta then 3 else 0)) with
    | None => keyPress (str "unknown <4>") false false meta alt
    | Some charByte =>
      if ((Char.bang <=? charByte) && (charByte <=? Char.at_))
         || ((Char.lbracket <=? charByte) && (charByte <=? Char.tilde))
      then keyPress (fromCharCode charByte) false false meta alt
      else if (Char.A <=? charByte) && (charByte <=? Char.Z_)
      then keyPress (fromCharCode charByte) true false meta alt
      else if charByte =? Char.NULL
      then keyPress (str "space") false true meta alt
      else if charByte =? Char.SPACE
      then keyPress (str "space") false false meta alt
      else if charByte =? Char.LF
      then keyPress (str "j") false true meta alt
      else if charByte =? Char.CR
      then keyPress (str "return") false false meta alt
      else if charByte =? Char.ESC
      then keyPress (str "escape") false false meta alt
      else if (charByte =? Char.Backspace) || (charByte =? Char.DEL)
      then keyPress (str "backspace") false false meta alt
      else if charByte =? Char.Tab
      then keyPress (str "tab") false false meta alt
      else if (Char.a - 96 <=? charByte) && (charByte <=? Char.z - 96)
      then keyPress (fromCharCode (charByte + 96)) false true meta alt
      else keyPress (str "unknown <4>") false false meta alt
    end
  else keyPress (str "unknown <end>") false false false false.

Definition decodeBuffer (buffer : Uint8Array) : KeyEvent :=
  if (2 <? length buffer)%nat && jeq (idx buffer 0) Char.ESC then
    (* Insert | Delete | PageUp | PageDown | Home | End | Arrows | F1..=F12 *)
    if jeq (idx buffer 1) Char.lbracket then
      (* F1..=F4 *)
      let fKey := jsub (idx buffer 6) Char.O in
      if isF1toF4 fKey then modifierKeypress (fname fKey) (idx buffer 5)
      (* Home | End | Arrows *)
      else if jne (idx buffer 3) Char.tilde && jne (idx buffer 4) Char.tilde
              && jne (idx buffer 5) Char.tilde && jne (idx buffer 6) Char.tilde
      then
        let hasModifiers := jeq (idx buffer 4) Char.semicolon in
        let terminator := idx buffer (if hasModifiers then 6 else 2) in
        let key :=
          if jeq terminator Char.A then str "up"
          else if jeq terminator Char.B then str "down"
          else if jeq terminator Char.C then str "right"
          else if jeq terminator Char.D then str "left"
          else if jeq terminator Char.F then str "end"
          else if jeq terminator Char.H then str "home"
          else str "unknown <1>" in
        if hasModifiers then modifierKeypress key (idx buffer 5)
        else keyPress key false false false false
      (* Insert | Delete | PageUp | PageDown *)
      else if jeq (idx buffer 3) Char.tilde
              || (jeq (idx buffer 3) Char.semicolon
                  && jeq (idx buffer 5) Char.tilde)
      then
        let key :=
          if jeq (idx buffer 2) Char.n2 then str "insert"
          else if jeq (idx buffer 2) Char.n3 then str "delete"
          else if jeq (idx buffer 2) Char.n5 then str "pageup"
          else if jeq (idx buffer 2) Char.n6 then str "pagedown"
          else str "unknown <2>" in
        if jeq (idx buffer 3) Char.semicolon
        then modifierKeypress key (idx buffer 4)
        else keyPress key false false false false
      else
        let fKey :=
          if jeq (idx buffer 2) Char.n1
          then skipAbove 5 (jsub (idx buffer 3) Char.n0)
          else skipAbove 10 (jadd (jsub (idx buffer 3) Char.n0) 9) in
        if jeq (idx buffer 4) Char.semicolon
        then modifierKeypress (fname fKey) (idx buffer 5)
        else keyPress (fname fKey) false false false false
    (* Shift + Return | F1..=F4 (SS3 prefix) *)
    else if jeq (idx buffer 1) Char.O then
      if jeq (idx buffer 2) Char.M
      then keyPress (str "return") true false false false
      else if jgt (idx buffer 2) Char.O
      then keyPress (fname (jsub (idx buffer 2) Char.O)) false false false false
      else modifierKeypress (fname (jsub (idx buffer 3) Char.O)) (idx buffer 2)
    else decodeAscii buffer
  else decodeAscii buffer.
End Standalone.

(** ** The platform's [TextDecoder]

    [new TextDecoder()] is the UTF-8 decoder of the Encoding Standard in
    replacement mode: a malformed sequence yields U+FFFD and the byte that
    broke it is read again, and one leading U+FEFF is dropped. *)

Record utf8_state := mkUtf8 {
  code_point : Z;
  bytes_seen : nat;
  bytes_needed : nat;
  lower_boundary : Z;
  upper_boundary : Z
}.

Definition utf8_init : utf8_state := mkUtf8 0 0 0 0x80 0xBF.

Definition REPLACEMENT : Z := 0xFFFD.

(** A byte read while no sequence is open. *)
Definition utf8_lead (b : Z) : list Z * utf8_state :=
  if (0 <=? b) && (b <=? 0x7F) then ([b], utf8_init)
  else if (0xC2 <=? b) && (b <=? 0xDF) then
    ([], mkUtf8 (Z.land b 0x1F) 0 1 0x80 0xBF)
  else if (0xE0 <=? b) && (b <=? 0xEF) then
    ([], mkUtf8 (Z.land b 0xF) 0 2
           (if b =? 0xE0 then 0xA0 else 0x80)
           (if b =? 0xED then 0x9F else 0xBF))
  else if (0xF0 <=? b) && (b <=? 0xF4) then
    ([], mkUtf8 (Z.land b 0x7) 0 3
           (if b =? 0xF0 then 0x90 else 0x80)
           (if b =? 0xF4 then 0x8F else 0xBF))
  else ([REPLACEMENT], utf8_init).

Definition utf8_step (st : utf8_state) (b : Z) : list Z * utf8_state :=
  if (bytes_needed st =? 0)%nat then utf8_lead b
  else if negb ((lower_boundary st <=? b) && (b <=? upper_boundary st)) then
    let '(out, st') := utf8_lead b in (REPLACEMENT :: out, st')
  else
    let cp := Z.lor (Z.shiftl (code_point st) 6) (Z.land b 0x3F) in
    let seen := S (bytes_seen st) in
    if (seen =? bytes_needed st)%nat then ([cp], utf8_init)
    else ([], mkUtf8 cp seen (bytes_needed st) 0x80 0xBF).

Fixpoint utf8_run (st : utf8_state) (bytes : list Z) : list Z :=
  match bytes with
  | [] => if (bytes_needed st =? 0)%nat then [] else [REPLACEMENT]
  | b :: rest =>
    let '(out, st') := utf8_step st b in out ++ utf8_run st' rest
  end.

(** [textDecoder.decode(bytes)] *)
Definition textDecoder_decode (bytes : Uint8Array) : jsstring :=
  match utf8_run utf8_init bytes with
  | cp :: rest => if cp =? 0xFEFF then rest else cp :: rest
  | [] => []
  end.

(** [buffer.slice(from, to)] and [buffer.slice(from)] *)
Definition slice (buffer : Uint8Array) (from to : nat) : Uint8Array :=
  firstn (to - from) (skipn from buffer).
Definition slice_from (buffer : Uint8Array) (from : nat) : Uint8Array :=
  skipn from buffer.

(** ** Return statements of the decoders

    Every decoder ends in one of four ways; a decoder is embedded as the
    function from the buffer to the return statement it reaches, and
    [exec] below carries that statement out. *)
Inductive ret :=
| ReturnNull
    (* return null *)
| ReturnMaybeMultiple (e : KeyEvent) (consumed : nat)
    (* return maybeMultiple(e, buffer, consumed) *)
| ReturnPushed (e : KeyEvent) (start : nat)
    (* e.push(...decodeBuffer(buffer.slice(start))); return e *)
| ReturnEvent (e : KeyEvent).
    (* return e *)

(** ** Legacy and UTF-8 keys: [decodeXTermUtf8Key] *)

Section Decoders.

(** [String.prototype.toUpperCase] and [toLowerCase]: the Unicode case
    tables of the platform, taken as parameters. *)
Variables toUpperCase toLowerCase : jsstring -> jsstring.

(** [character.toUpperCase() === character &&
     character.toLowerCase() !== character] *)
Definition shiftOf (character : jsstring) : bool :=
  jsstring_eqb (toUpperCase character) character
  && negb (jsstring_eqb (toLowerCase character) character).

(** The cases of the [switch (charByte)] that name a key: the key and
    the [ctrl] flag they leave; [None] is the [default] case. *)
Definition switchKey (charByte : Z) : option (jsstring * bool) :=
  if charByte =? Char.NULL then Some (str "space", true)
  else if charByte =? Char.SPACE then Some (str "space", false)
  else if charByte =? Char.LF then Some (str "j", true)
  else if charByte =? Char.CR then Some (str "return", false)
  else if charByte =? Char.ESC then Some (str "escape", false)
  else if (charByte =? Char.Backspace) || (charByte =? Char.DEL)
    then Some (str "backspace", false)
  else if charByte =? Char.Tab then Some (str "tab", false)
  else None.

(** Number of bytes announced by the leading ones of the first byte. *)
Definition codePointsOf (charByte : Z) : nat :=
  if Z.land charByte 0xf0 =? 0xf0 then 4%nat
  else if Z.land charByte 0xe0 =? 0xe0 then 3%nat
  else if Z.land charByte 0xc0 =? 0xc0 then 2%nat
  else 1%nat.

Definition decodeXTermUtf8Key (buffer : Uint8Array) : ret :=
  let meta :=
    jeq (idx buffer 0) Char.CANCEL && jeq (idx buffer 1) Char.at_
    && jeq (idx buffer 2) Char.s in
  let alt :=
    (meta && jeq (idx buffer 3) Char.ESC)
    || ((1 <? length buffer)%nat && jeq (idx buffer 0) Char.ESC) in
  let startPos := ((if alt then 1 else 0) + (if meta then 3 else 0))%nat in
  match idx buffer startPos with
  | None => ReturnNull
  | Some charByte =>
    if ((Char.bang <=? charByte) && (charByte <=? Char.at_))
       || ((Char.lbracket <=? charByte) && (charByte <=? Char.tilde))
    then
      let character := fromCharCode charByte in
      ReturnMaybeMultiple (keyEvent character false false alt meta)
                          (startPos + 1)
    else if (Char.A <=? charByte) && (charByte <=? Char.Z_) then
      let character := fromCharCode charByte in
      ReturnMaybeMultiple (keyEvent character true false alt meta)
                          (startPos + 1)
    else
      match switchKey charByte with
      | Some (key, ctrl) =>
        ReturnMaybeMultiple (keyEvent key false ctrl alt meta) (startPos + 1)
      | None =>
        if (Char.a - 96 <=? charByte) && (charByte <=? Char.z - 96) then
          ReturnMaybeMultiple
            (keyEvent (fromCharCode (charByte + 96)) false true alt meta)
            (startPos + 1)
        else
          let codePoints := codePointsOf charByte in
          (* Buffer has been cut *)
          if (length buffer <? codePoints)%nat then ReturnNull
          (* Definitely multiple characters *)
          else if (startPos + codePoints <? length buffer)%nat then
            let character :=
              textDecoder_decode
                (slice buffer startPos (startPos + codePoints)) in
            let shift := shiftOf character in
            ReturnPushed (keyEvent character shift false alt meta)
                         (startPos + codePoints)
          (* Definitely singular character *)
          else
            let character := textDecoder_decode buffer in
            let shift := shiftOf character in
            ReturnEvent (keyEvent character shift false alt meta)
      end
  end.

(** ** SS3 keys: [decodeXTermSS3FunctionKeys] *)

Definition decodeXTermSS3FunctionKeys (buffer : Uint8Array) : ret :=
  if jeq (idx buffer 2) Char.M then
    ReturnMaybeMultiple (keyEvent (str "return") true false false false) 3
  else if jgt (idx buffer 2) Char.O then
    let fKey := jsub (idx buffer 2) Char.O in
    ReturnMaybeMultiple (plainKey (fname fKey)) 3
  else if (length buffer <? 4)%nat then ReturnNull
  else
    let fKey := jsub (idx buffer 3) Char.O in
    ReturnMaybeMultiple (modifierKeypress (fname fKey) (idx buffer 2)) 4.

(** ** CSI keys: [decodeXTermCSIFunctionKeys] *)

(** [switch (buffer[hasModifiers ? 5 : 2])] of the arrows branch: the key
    named by the terminator, [inr true] for the ["Z"] case, which returns
    at once, and [inr false] for the [default] case. *)
Definition arrowKey (terminator : num) : jsstring + bool :=
  if jeq terminator Char.A then inl (str "up")
  else if jeq terminator Char.B then inl (str "down")
  else if jeq terminator Char.C then inl (str "right")
  else if jeq terminator Char.D then inl (str "left")
  else if jeq terminator Char.F then inl (str "end")
  else if jeq terminator Char.H then inl (str "home")
  else if jeq terminator Char.Z_ then inr true
  else inr false.

(** [switch (buffer[2])] of the insert/delete/page branch. *)
Definition editKey (b : num) : option jsstring :=
  if jeq b Char.n2 then Some (str "insert")
  else if jeq b Char.n3 then Some (str "delete")
  else if jeq b Char.n5 then Some (str "pageup")
  else if jeq b Char.n6 then Some (str "pagedown")
  else None.

(** [fKey > 0 && fKey < 5] *)
Definition isF1toF4 (fKey : num) : bool := jgt fKey 0 && jlt fKey 5.

(** [if (fKey > limit) fKey--] *)
Definition skipAbove (limit : Z) (fKey : num) : num :=
  if jgt fKey limit then jsub fKey 1 else fKey.

(** The tests that guard the branches of the CSI decoder, in the order
    they are tried. *)

(* Home | End | Shift+Tab | Arrows *)
Definition csiArrowForm (buffer : Uint8Array) : bool :=
  (jeq (idx buffer 2) Char.Z_
   || (jge (idx buffer 2) Char.A && jle (idx buffer 2) Char.H))
  || (jeq (idx buffer 3) Char.semicolon
      && (jge (idx buffer 5) Char.A && jle (idx buffer 5) Char.H)).

(* Insert | Delete | PageUp | PageDown *)
Definition csiEditForm (buffer : Uint8Array) : bool :=
  jeq (idx buffer 3) Char.tilde
  || (jeq (idx buffer 3) Char.semicolon && jeq (idx buffer 5) Char.tilde).

(* F1..=F4 (without modifiers) *)
Definition csiPlainF1toF4 (buffer : Uint8Array) : bool :=
  jne (idx buffer 3) Char.semicolon
  && isF1toF4 (jsub (idx buffer 2) Char.O).

(* F1..=F4 (with modifiers) *)
Definition csiModifiedF1toF4 (buffer : Uint8Array) : bool :=
  isF1toF4 (jsub (idx buffer 5) Char.O).

Definition decodeXTermCSIFunctionKeys (buffer : Uint8Array) : ret :=
  if csiArrowForm buffer then
    (* If fourth character is a semicolon then it has encoded modifiers *)
    let hasModifiers := jeq (idx buffer 3) Char.semicolon in
    match arrowKey (idx buffer (if hasModifiers then 5 else 2)) with
    | inr true =>
      ReturnMaybeMultiple (keyEvent (str "tab") true false false false) 3
    | inr false => ReturnNull
    | inl key =>
      if hasModifiers then
        ReturnMaybeMultiple (modifierKeypress key (idx buffer 4)) 6
      else ReturnMaybeMultiple (plainKey key) 3
    end
  else if csiEditForm buffer then
    match editKey (idx buffer 2) with
    | None => ReturnNull
    | Some key =>
      if jeq (idx buffer 3) Char.semicolon then
        ReturnMaybeMultiple (modifierKeypress key (idx buffer 4)) 6
      else ReturnMaybeMultiple (plainKey key) 4
    end
  else if csiPlainF1toF4 buffer then
    ReturnMaybeMultiple (plainKey (fname (jsub (idx buffer 2) Char.O))) 3
  else if (length buffer <? 5)%nat then ReturnNull
  else if csiModifiedF1toF4 buffer then
    ReturnMaybeMultiple
      (modifierKeypress (fname (jsub (idx buffer 5) Char.O)) (idx buffer 4))
      6
  else
    let fKey :=
      if jeq (idx buffer 2) Char.n1 then
        Some (skipAbove 5 (jsub (idx buffer 3) Char.n0))
      else if jeq (idx buffer 2) Char.n2 then
        (* We are starting from 0 and its F9, so we add 9 *)
        Some (skipAbove 10 (jadd (jsub (idx buffer 3) Char.n0) 9))
      else None (* Invalid function key sequence *) in
    match fKey with
    | None => ReturnNull
    | Some fKey =>
      (* If 5th character is a semicolon, then it encodes modifiers *)
      if jeq (idx buffer 4) Char.semicolon then
        if jne (idx buffer 6) Char.tilde then ReturnNull
        else
          ReturnMaybeMultiple (modifierKeypress (fname fKey) (idx buffer 5))
                              7
      else if jne (idx buffer 4) Char.tilde then ReturnNull
      else ReturnMaybeMultiple (plainKey (fname fKey)) 5
    end.

End Decoders.

(** ** Splitter and dispatcher *)

(** What a call of a decoder, or of [decodeBuffer], comes to. *)
Inductive outcome :=
| Throws                        (* a TypeError is raised *)
| Null                          (* null: incomplete or unrecognized *)
| Events (es : list KeyEvent).  (* a non-empty array of events *)

Section Dispatcher.

Variables toUpperCase toLowerCase : jsstring -> jsstring.

(** Modelled from the spec: the dispatcher of [decode.ts]
    ([decodeBuffer]) is not among the sources.  A buffer of more than one
    byte starting with ESC "[" goes to the CSI decoder, one starting with
    ESC "O" to the SS3 decoder, every other buffer to the legacy/UTF-8
    decoder. *)
Definition route (buffer : Uint8Array) : ret :=
  if (1 <? length buffer)%nat && jeq (idx buffer 0) Char.ESC
     && jeq (idx buffer 1) Char.lbracket
  then decodeXTermCSIFunctionKeys buffer
  else if jeq (idx buffer 0) Char.ESC && jeq (idx buffer 1) Char.O
  then decodeXTermSS3FunctionKeys buffer
  else decodeXTermUtf8Key toUpperCase toLowerCase buffer.

(** The recursive calls go through [decodeBuffer], given here as
    [rec]; it answers [None] when the recursion was cut short. *)
Variable rec : Uint8Array -> option outcome.

(** Modelled from the spec: the splitter of [decode.ts]
    ([maybeMultiple]) is not among the sources.  When the event accounts
    for the whole buffer it is returned alone; otherwise the rest of the
    buffer is decoded, and its events follow the first one unless that
    decoding yields null, in which case the first event is returned
    alone. *)
Definition maybeMultiple (e : KeyEvent) (buffer : Uint8Array)
           (consumed : nat) : option outcome :=
  if (consumed =? length buffer)%nat then Some (Events [e])
  else
    match rec (slice_from buffer consumed) with
    | None => None
    | Some Throws => Some Throws
    | Some Null => Some (Events [e])
    | Some (Events es) => Some (Events (e :: es))
    end.

(** [event.push(...decodeBuffer(buffer.slice(start))); return event]:
    spreading [null] raises a TypeError. *)
Definition pushTail (e : KeyEvent) (buffer : Uint8Array) (start : nat)
  : option outcome :=
  match rec (slice_from buffer start) with
  | None => None
  | Some Throws => Some Throws
  | Some Null => Some Throws
  | Some (Events es) => Some (Events (e :: es))
  end.

Definition exec (buffer : Uint8Array) (r : ret) : option outcome :=
  match r with
  | ReturnNull => Some Null
  | ReturnMaybeMultiple e consumed => maybeMultiple e buffer consumed
  | ReturnPushed e start => pushTail e buffer start
  | ReturnEvent e => Some (Events [e])
  end.

End Dispatcher.

(** Modelled from the spec: [decodeBuffer], the entry point, routes the
    buffer and carries out the return statement reached; the depth of its
    recursion is bounded here by [fuel]. *)
Fixpoint decodeBuffer_fuel (toUpperCase toLowerCase : jsstring -> jsstring)
         (fuel : nat) (buffer : Uint8Array) : option outcome :=
  match fuel with
  | O => None
  | S fuel' =>
    exec (decodeBuffer_fuel toUpperCase toLowerCase fuel') buffer
         (route toUpperCase toLowerCase buffer)
  end.

(** Every recursive call is on a shorter buffer (see
    [decodeBuffer_fuel_enough] below), so this much fuel is never used up. *)
Definition decodeBuffer (toUpperCase toLowerCase : jsstring -> jsstring)
           (buffer : Uint8Array) : option outcome :=
  decodeBuffer_fuel toUpperCase toLowerCase (S (length buffer)) buffer.

(** ** A case mapping to run the decoder with

    The letters of Latin-1, enough for the examples. *)
Definition latin1_isLower (c : Z) : bool :=
  ((97 <=? c) && (c <=? 122))
  || ((224 <=? c) && (c <=? 254) && negb (c =? 247)).
Definition latin1_isUpper (c : Z) : bool :=
  ((65 <=? c) && (c <=? 90))
  || ((192 <=? c) && (c <=? 222) && negb (c =? 215)).
Definition latin1_toUpperCase (s : jsstring) : jsstring :=
  map (fun c => if latin1_isLower c then c - 32 else c) s.
Definition latin1_toLowerCase (s : jsstring) : jsstring :=
  map (fun c => if latin1_isUpper c then c + 32 else c) s.

Definition decode : Uint8Array -> option outcome :=
  decodeBuffer latin1_toUpperCase latin1_toLowerCase.

(** ** Vocabulary of key names *)

Definition namedKeys : list jsstring :=
  map str
      ["space"; "return"; "escape"; "backspace"; "tab"; "up"; "down"; "left";
       "right"; "home"; "end"; "insert"; "delete"; "pageup"; "pagedown";
       "f1"; "f2"; "f3"; "f4"; "f5"; "f6"; "f7"; "f8"; "f9"; "f10"; "f11";
       "f12"]%string.

(** A key is a single character or one of the named keys. *)
Definition inVocabulary (k : jsstring) : bool :=
  (length k =? 1)%nat || existsb (jsstring_eqb k) namedKeys.

(** The name the spec gives to the terminator of an arrow sequence. *)
Definition arrowName (terminator : Z) : jsstring :=
  if terminator =? Char.A then str "up"
  else if terminator =? Char.B then str "down"
  else if terminator =? Char.C then str "right"
  else if terminator =? Char.D then str "left"
  else if terminator =? Char.F then str "end"
  else str "home".

(** The function number the spec gives for the two digits [x] and [d] of
    the F5..F12 scheme. *)
Definition irregularNumber (x d : Z) : option Z :=
  if x =? Char.n1 then
    let number := d - Char.n0 in
    Some (if 5 <? number then number - 1 else number)
  else if x =? Char.n2 then
    let number := d - Char.n0 + 9 in
    Some (if 10 <? number then number - 1 else number)
  else None.

(** Modelled from the spec: the key of the function number [n] is "f"
    followed by [n] in decimal (written here for the numbers of at most
    three digits, with their sign). *)
Definition decimal (n : Z) : jsstring :=
  let a := Z.abs n in
  (if n <? 0 then str "-" else [])
    ++ (if 100 <=? a then [Char.n0 + a / 100] else [])
    ++ (if 10 <=? a then [Char.n0 + (a / 10) mod 10] else [])
    ++ [Char.n0 + a mod 10].

Definition functionKey (n : Z) : jsstring := str "f" ++ decimal n.

(** Modelled from the spec: the key that the digit of an insert, delete,
    page-up or page-down sequence stands for. *)
Definition editName (d : Z) : option jsstring :=
  option_map (fun entry => str (snd entry))
             (find (fun entry => jsstring_eqb [d] (str (fst entry)))
                   [("2", "insert"); ("3", "delete"); ("5", "pageup");
                    ("6", "pagedown")]%string).

Definition isArrowTerminator (terminator : Z) : bool :=
  existsb (Z.eqb terminator)
          [Char.A; Char.B; Char.C; Char.D; Char.F; Char.H].

(** ** Views of [decodeXTermUtf8Key]

    Its prefix tests, and what it does with the character byte once the
    prefixes are known; [decodeXTermUtf8Key_view] below puts them back
    together. *)
Definition metaPrefix (buffer : Uint8Array) : bool :=
  jeq (idx buffer 0) Char.CANCEL && jeq (idx buffer 1) Char.at_
  && jeq (idx buffer 2) Char.s.
Definition altPrefix (buffer : Uint8Array) : bool :=
  (metaPrefix buffer && jeq (idx buffer 3) Char.ESC)
  || ((1 <? length buffer)%nat && jeq (idx buffer 0) Char.ESC).
Definition startPosOf (buffer : Uint8Array) : nat :=
  ((if altPrefix buffer then 1 else 0)
   + (if metaPrefix buffer then 3 else 0))%nat.

Definition decodeCharByte (up low : jsstring -> jsstring)
           (buffer : Uint8Array) (meta alt : bool) (startPos : nat)
           (charByte : Z) : ret :=
      if ((Char.bang <=? charByte) && (charByte <=? Char.at_))
         || ((Char.lbracket <=? charByte) && (charByte <=? Char.tilde))
      then
        let character := fromCharCode charByte in
        ReturnMaybeMultiple (keyEvent character false false alt meta)
                            (startPos + 1)
      else if (Char.A <=? charByte) && (charByte <=? Char.Z_) then
        let character := fromCharCode charByte in
        ReturnMaybeMultiple (keyEvent character true false alt meta)
                            (startPos + 1)
      else
        match switchKey charByte with
        | Some (key, ctrl) =>
          ReturnMaybeMultiple (keyEvent key false ctrl alt meta) (startPos + 1)
        | None =>
          if (Char.a - 96 <=? charByte) && (charByte <=? Char.z - 96) then
            ReturnMaybeMultiple
              (keyEvent (fromCharCode (charByte + 96)) false true alt meta)
              (startPos + 1)
          else
            let codePoints := codePointsOf charByte in
            if (length buffer <? codePoints)%nat then ReturnNull
            else if (startPos + codePoints <? length buffer)%nat then
              let character :=
                textDecoder_decode
                  (slice buffer startPos (startPos + codePoints)) in
              let shift := shiftOf up low character in
              ReturnPushed (keyEvent character shift false alt meta)
                           (startPos + codePoints)
            else
              let character := textDecoder_decode buffer in
              let shift := shiftOf up low character in
              ReturnEvent (keyEvent character shift false alt meta)
        end.

(** ** Boundaries between the sequences of a buffer *)

Definition isEvents (o : option outcome) : bool :=
  match o with Some (Events _) => true | _ => false end.

(** ESC "[" t ";" m "Z", with [t] an arrow terminator or "Z": the arrow
    branch is entered on [t], takes the ";" for the sign of modifiers and
    reads the terminator "Z" at index 5, which makes the whole a
    Shift+Tab with a consumed length of 3. *)
Definition shiftTabBehindSemicolon (buffer : Uint8Array) : bool :=
  jeq (idx buffer 0) Char.ESC && jeq (idx buffer 1) Char.lbracket
  && (jeq (idx buffer 2) Char.Z_
      || (jge (idx buffer 2) Char.A && jle (idx buffer 2) Char.H))
  && jeq (idx buffer 3) Char.semicolon
  && jeq (idx buffer 5) Char.Z_.

(** A character behind a meta or alt prefix that is left to the UTF-8
    branch, with more bytes after it. *)
Definition prefixedUtf8 (up low : jsstring -> jsstring)
           (buffer : Uint8Array) : bool :=
  match route up low buffer with
  | ReturnPushed _ _ =>
    jeq (idx buffer 0) Char.ESC || jeq (idx buffer 0) Char.CANCEL
  | _ => false
  end.

(** The first sequence of the buffer is decoded with a look at bytes
    past the ones it consumes. *)
Definition looksAhead (up low : jsstring -> jsstring)
           (buffer : Uint8Array) : bool :=
  shiftTabBehindSemicolon buffer || prefixedUtf8 up low buffer.

(** [boundary_fuel ok up low fuel buffer k]: an event other than the first
    of the decoding of [buffer] starts at offset [k], and every sequence
    of [buffer] before that offset satisfies [ok]. *)
Fixpoint boundary_fuel (ok : Uint8Array -> bool)
         (up low : jsstring -> jsstring) (fuel : nat)
         (buffer : Uint8Array) (k : nat) : bool :=
  match fuel with
  | O => false
  | S fuel' =>
    match route up low buffer with
    | ReturnMaybeMultiple _ consumed | ReturnPushed _ consumed =>
      ok buffer
      && (consumed <? length buffer)%nat
      && isEvents (decodeBuffer up low (slice_from buffer consumed))
      && ((k =? consumed)%nat
          || ((consumed <? k)%nat
              && boundary_fuel ok up low fuel' (slice_from buffer consumed)
                               (k - consumed)))
    | _ => false
    end
  end.

(** A boundary between two sequences. *)
Definition boundary (up low : jsstring -> jsstring) (buffer : Uint8Array)
           (k : nat) : bool :=
  boundary_fuel (fun _ => true) up low (length buffer) buffer k.

(** A boundary with no look ahead before it. *)
Definition plainBoundary (up low : jsstring -> jsstring)
           (buffer : Uint8Array) (k : nat) : bool :=
  boundary_fuel (fun b => negb (looksAhead up low b)) up low (length buffer)
                buffer k.

(** The splitting property: cutting a buffer at a boundary and decoding
    the two parts gives, put together, the events of the whole. *)
Definition splitting_property (up low : jsstring -> jsstring) : Prop :=
  forall (B : Uint8Array) (E : list KeyEvent) (k : nat),
    decodeBuffer up low B = Some (Events E) ->
    boundary up low B k = true ->
    exists E1 E2,
      decodeBuffer up low (firstn k B) = Some (Events E1)
      /\ decodeBuffer up low (skipn k B) = Some (Events E2)
      /\ E1 ++ E2 = E.

(** ** The read loop of the stand-alone decoder

    [decodeStdout] of [src/decode.ts] is an async generator: it puts the
    terminal in raw mode, then for each chunk read from standard input it
    stops if the chunk starts with byte 3 (Ctrl+C), and otherwise logs the
    chunk and yields its decoded key.  It is embedded as the function from
    the chunks the stream delivers to the effects of a consumer that
    drains the generator, in order. *)
Inductive effect :=
| SetRaw                                        (* Deno.stdin.setRaw(true) *)
| Log (chunk : Uint8Array) (text : jsstring)    (* console.log(...) *)
| Yield (k : KeyEvent).                         (* yield decodeBuffer(chunk) *)

(** [for await (const chunk of Deno.stdin.readable)] *)
Fixpoint readLoop (chunks : list Uint8Array) : list effect :=
  match chunks with
  | [] => []
  | chunk :: rest =>
    if jeq (idx chunk 0) 3 then []
    else Log chunk (textDecoder_decode chunk)
             :: Yield (Standalone.decodeBuffer chunk) :: readLoop rest
  end.

Definition decodeStdout (chunks : list Uint8Array) : list effect :=
  SetRaw :: readLoop chunks.

(** The keys a trace yields, and the chunks that do not stop the loop. *)
Definition yielded (trace : list effect) : list KeyEvent :=
  flat_map (fun f => match f with Yield k => [k] | _ => [] end) trace.

Definition keepsReading (chunk : Uint8Array) : bool :=
  negb (jeq (idx chunk 0) 3).

(** ** Vocabulary for the properties of the decoders

    None of the following is code of the library: these are the classes
    of bytes and buffers, and the operations on events, in whose terms
    the behaviour of the decoders is stated. *)

(** The UTF-8 encoder of the Encoding Standard, the inverse of what
    [TextDecoder] reads. *)
Definition utf8_encode (cp : Z) : Uint8Array :=
  let continuation (i : Z) := Z.lor 0x80 (Z.land (Z.shiftr cp (6 * i)) 0x3F) in
  if cp <? 0x80 then [cp]
  else if cp <? 0x800 then [Z.shiftr cp 6 + 0xC0; continuation 0]
  else if cp <? 0x10000 then
    [Z.shiftr cp 12 + 0xE0; continuation 1; continuation 0]
  else
    [Z.shiftr cp 18 + 0xF0; continuation 2; continuation 1; continuation 0].

(** A Unicode scalar value: a code point that is no surrogate. *)
Definition isScalar (cp : Z) : bool :=
  (0 <=? cp) && (cp <=? 0x10FFFF)
  && negb ((0xD800 <=? cp) && (cp <=? 0xDFFF)).

(** An event with [alt], or [meta], set. *)
Definition withAlt (e : KeyEvent) : KeyEvent :=
  mkKeyEvent (key e) (shift e) (ctrl e) true (meta e).
Definition withMeta (e : KeyEvent) : KeyEvent :=
  mkKeyEvent (key e) (shift e) (ctrl e) (alt e) true.

(** The printable ASCII bytes, and the event each one stands for. *)
Definition isPrintable (b : Z) : bool :=
  (Char.SPACE <=? b) && (b <=? Char.tilde).

Definition printableKey (b : Z) : KeyEvent :=
  if b =? Char.SPACE then plainKey (str "space")
  else keyEvent (fromCharCode b) ((Char.A <=? b) && (b <=? Char.Z_))
                false false false.

(** The bytes that one of the ASCII cases of [decodeXTermUtf8Key] takes:
    all of 0..127 but the four separators 28..31. *)
Definition isLegacyByte (c : Z) : bool :=
  ((0 <=? c) && (c <=? Char.ESC)) || ((Char.SPACE <=? c) && (c <=? Char.DEL)).

(** The third byte of a CSI buffer is a key by itself: "Z", "A".."H" or
    "P".."S". *)
Definition csiLetter (x : Z) : bool :=
  (x =? Char.Z_) || ((Char.A <=? x) && (x <=? Char.H))
  || ((Char.O <? x) && (x <? Char.O + 5)).

(** The complete sequences without modifiers that both decoders know:
    ESC "[" arrow, ESC "O" key, ESC "[" digit "~" and
    ESC "[" digit digit "~". *)
Definition plainSequence (buffer : Uint8Array) : bool :=
  match buffer with
  | [e; l; t] =>
    (e =? Char.ESC)
    && (((l =? Char.lbracket) && isArrowTerminator t)
        || ((l =? Char.O)
            && ((t =? Char.M) || ((Char.O <? t) && (t <=? 255)))))
  | [e; l; d; t] =>
    (e =? Char.ESC) && (l =? Char.lbracket) && (t =? Char.tilde)
    && match editKey (Some d) with Some _ => true | None => false end
  | [e; l; x; d; t] =>
    (e =? Char.ESC) && (l =? Char.lbracket) && (t =? Char.tilde)
    && ((x =? Char.n1) || (x =? Char.n2))
    && (0 <=? d) && (d <=? 255) && negb (d =? Char.tilde)
  | _ => false
  end.

(** ** Basic facts *)

Lemma idx_Some_lt (buffer : Uint8Array) (i : nat) (v : Z) :
  idx buffer i = Some v -> (i < length buffer)%nat.
Proof.
  unfold idx. intros E. apply nth_error_Some. congruence.
Qed.

Lemma jeq_true (x : num) (c : Z) : jeq x c = true -> x = Some c.
Proof.
  destruct x as [v|]; simpl; [|discriminate].
  intros E. apply Z.eqb_eq in E. now subst.
Qed.

Lemma jgt_true (x : num) (c : Z) :
  jgt x c = true -> exists v, x = Some v /\ c < v.
Proof.
  destruct x as [v|]; simpl; [|discriminate].
  intros E. apply Z.ltb_lt in E. eauto.
Qed.

Lemma jge_true (x : num) (c : Z) :
  jge x c = true -> exists v, x = Some v /\ c <= v.
Proof.
  destruct x as [v|]; simpl; [|discriminate].
  intros E. apply Z.leb_le in E. eauto.
Qed.

Lemma isF1toF4_true (x : num) (c : Z) :
  isF1toF4 (jsub x c) = true -> exists v, x = Some v.
Proof.
  destruct x as [v|]; simpl; [eauto|discriminate].
Qed.

Lemma length_slice_from (buffer : Uint8Array) (n : nat) :
  length (slice_from buffer n) = (length buffer - n)%nat.
Proof. apply length_skipn. Qed.

(** Reading the length of the buffer off a test that succeeded. *)
Ltac index_facts :=
  repeat match goal with
         | H : jeq (idx ?b ?i) ?c = true |- _ =>
           apply jeq_true in H; pose proof (idx_Some_lt _ _ _ H)
         | H : jgt (idx ?b ?i) ?c = true |- _ =>
           apply jgt_true in H; destruct H as (? & H & ?);
           pose proof (idx_Some_lt _ _ _ H)
         | H : jge (idx ?b ?i) ?c = true |- _ =>
           apply jge_true in H; destruct H as (? & H & ?);
           pose proof (idx_Some_lt _ _ _ H)
         | H : isF1toF4 (jsub (idx ?b ?i) ?c) = true |- _ =>
           apply isF1toF4_true in H; destruct H as (? & H);
           pose proof (idx_Some_lt _ _ _ H)
         | H : (_ <? _)%nat = true |- _ => apply Nat.ltb_lt in H
         | H : (_ <? _)%nat = false |- _ => apply Nat.ltb_ge in H
         | H : _ && _ = true |- _ => apply andb_prop in H; destruct H
         end.

(** Two different values read at one index. *)
Ltac same_index_differs :=
  match goal with
  | H1 : ?x = Some ?a, H2 : ?x = Some ?b |- _ =>
    rewrite H1 in H2; vm_compute in H2; discriminate H2
  end.

(** Splitting a decoder on every test it makes. *)
Ltac split_tests :=
  repeat match goal with
         | H : context [if ?c then _ else _] |- _ =>
           let E := fresh "T" in destruct c eqn:E
         | H : context [match ?c with _ => _ end] |- _ =>
           let E := fresh "T" in destruct c eqn:E
         end.

(** Naming the position of the character byte in [decodeXTermUtf8Key]. *)
Ltac name_startPos :=
  cbv zeta;
  match goal with
  | |- context [match idx _ ?p with _ => _ end] =>
    let startPos := fresh "startPos" in set (startPos := p)
  end.

(** ** Consumed lengths *)

Lemma codePointsOf_pos (charByte : Z) : (1 <= codePointsOf charByte)%nat.
Proof.
  unfold codePointsOf.
  repeat match goal with |- context [if ?c then _ else _] => destruct c end;
    lia.
Qed.

Lemma utf8_consumed (up low : jsstring -> jsstring) (buffer : Uint8Array)
      (e : KeyEvent) (n : nat) :
  decodeXTermUtf8Key up low buffer = ReturnMaybeMultiple e n ->
  (1 <= n <= length buffer)%nat.
Proof.
  unfold decodeXTermUtf8Key.
  name_startPos.
  destruct (idx buffer startPos) as [charByte|] eqn:Hc; [|discriminate].
  apply idx_Some_lt in Hc.
  intros H; split_tests; inversion H; subst; lia.
Qed.

Lemma utf8_pushed (up low : jsstring -> jsstring) (buffer : Uint8Array)
      (e : KeyEvent) (n : nat) :
  decodeXTermUtf8Key up low buffer = ReturnPushed e n ->
  (1 <= n < length buffer)%nat.
Proof.
  unfold decodeXTermUtf8Key.
  name_startPos.
  destruct (idx buffer startPos) as [charByte|] eqn:Hc; [|discriminate].
  intros H; split_tests; inversion H; subst.
  pose proof (codePointsOf_pos charByte). index_facts. lia.
Qed.

Lemma ss3_consumed (buffer : Uint8Array) (e : KeyEvent) (n : nat) :
  decodeXTermSS3FunctionKeys buffer = ReturnMaybeMultiple e n ->
  (1 <= n <= length buffer)%nat.
Proof.
  unfold decodeXTermSS3FunctionKeys.
  intros H; split_tests; inversion H; subst; index_facts; lia.
Qed.

Lemma ss3_never_pushes (buffer : Uint8Array) (e : KeyEvent) (n : nat) :
  decodeXTermSS3FunctionKeys buffer <> ReturnPushed e n.
Proof.
  unfold decodeXTermSS3FunctionKeys.
  intros H; split_tests; discriminate.
Qed.

Lemma arrowKey_defined (terminator : num) :
  arrowKey terminator <> inr false -> exists v, terminator = Some v.
Proof.
  destruct terminator as [v|]; [eauto|]. intros H. now destruct H.
Qed.

Lemma csi_consumed (buffer : Uint8Array) (e : KeyEvent) (n : nat) :
  decodeXTermCSIFunctionKeys buffer = ReturnMaybeMultiple e n ->
  (1 <= n <= length buffer)%nat.
Proof.
  unfold decodeXTermCSIFunctionKeys, csiArrowForm, csiEditForm,
    csiPlainF1toF4, csiModifiedF1toF4, jne.
  cbv zeta.
  intros H; split_tests; inversion H; subst; clear H;
    repeat match goal with
           | H : arrowKey ?t = _ |- _ =>
             let E := fresh in
             assert (E : arrowKey t <> inr false) by (rewrite H; discriminate);
             apply arrowKey_defined in E; destruct E as (? & E);
             pose proof (idx_Some_lt _ _ _ E); clear H
           | H : _ || _ = true |- _ => apply orb_prop in H; destruct H
           | H : negb _ = false |- _ => apply negb_false_iff in H
           | H : _ && _ = true |- _ => apply andb_prop in H; destruct H
           end;
    index_facts;
    first [lia | exfalso; same_index_differs].
Qed.

Lemma csi_never_pushes (buffer : Uint8Array) (e : KeyEvent) (n : nat) :
  decodeXTermCSIFunctionKeys buffer <> ReturnPushed e n.
Proof.
  unfold decodeXTermCSIFunctionKeys.
  intros H; split_tests; discriminate.
Qed.

Lemma route_consumed (up low : jsstring -> jsstring) (buffer : Uint8Array)
      (e : KeyEvent) (n : nat) :
  route up low buffer = ReturnMaybeMultiple e n ->
  (1 <= n <= length buffer)%nat.
Proof.
  unfold route.
  destruct (_ && _ && _).
  - apply csi_consumed.
  - destruct (_ && _); [apply ss3_consumed | apply utf8_consumed].
Qed.

Lemma route_pushed (up low : jsstring -> jsstring) (buffer : Uint8Array)
      (e : KeyEvent) (n : nat) :
  route up low buffer = ReturnPushed e n ->
  (1 <= n < length buffer)%nat.
Proof.
  unfold route.
  destruct (_ && _ && _).
  - intros H. now apply csi_never_pushes in H.
  - destruct (_ && _).
    + intros H. now apply ss3_never_pushes in H.
    + apply utf8_pushed.
Qed.

(** ** Termination of [decodeBuffer] *)

(** Fuel above the length of the buffer is never used up, and the result
    does not depend on how much of it there is. *)
Lemma decodeBuffer_fuel_enough (up low : jsstring -> jsstring) :
  forall (fuel : nat) (buffer : Uint8Array),
    (length buffer < fuel)%nat ->
    decodeBuffer_fuel up low fuel buffer = decodeBuffer up low buffer
    /\ exists o, decodeBuffer up low buffer = Some o.
Proof.
  assert (Hind : forall fuel buffer,
             (length buffer < fuel)%nat ->
             forall fuel', (length buffer < fuel')%nat ->
               decodeBuffer_fuel up low fuel buffer
               = decodeBuffer_fuel up low fuel' buffer
               /\ exists o, decodeBuffer_fuel up low fuel buffer = Some o).
  { induction fuel as [|fuel IH]; intros buffer Hlen fuel' Hlen'; [lia|].
    destruct fuel' as [|fuel']; [lia|].
    simpl.
    destruct (route up low buffer) as [|e n|e n|e] eqn:Hr; simpl.
    - eauto.
    - apply route_consumed in Hr.
      unfold maybeMultiple.
      destruct (n =? length buffer)%nat eqn:Hn; [eauto|].
      apply Nat.eqb_neq in Hn.
      assert (Ht : (length (slice_from buffer n) < fuel)%nat)
        by (rewrite length_slice_from; lia).
      assert (Ht' : (length (slice_from buffer n) < fuel')%nat)
        by (rewrite length_slice_from; lia).
      destruct (IH _ Ht fuel' Ht') as [<- [o Ho]].
      rewrite Ho. destruct o; eauto.
    - apply route_pushed in Hr.
      unfold pushTail.
      assert (Ht : (length (slice_from buffer n) < fuel)%nat)
        by (rewrite length_slice_from; lia).
      assert (Ht' : (length (slice_from buffer n) < fuel')%nat)
        by (rewrite length_slice_from; lia).
      destruct (IH _ Ht fuel' Ht') as [<- [o Ho]].
      rewrite Ho. destruct o; eauto.
    - eauto. }
  intros fuel buffer Hlen. unfold decodeBuffer.
  destruct (Hind fuel buffer Hlen (S (length buffer)) (Nat.lt_succ_diag_r _))
    as [-> _].
  split; [reflexivity|].
  destruct (Hind (S (length buffer)) buffer (Nat.lt_succ_diag_r _)
                 (S (length buffer)) (Nat.lt_succ_diag_r _)) as [_ Ho].
  exact Ho.
Qed.

Lemma decodeBuffer_total (up low : jsstring -> jsstring)
      (buffer : Uint8Array) :
  exists o, decodeBuffer up low buffer = Some o.
Proof.
  apply (decodeBuffer_fuel_enough up low (S (length buffer))). lia.
Qed.

(** [decodeBuffer] unfolds to one step of routing followed by itself on the
    rest. *)
Lemma decodeBuffer_unfold (up low : jsstring -> jsstring)
      (buffer : Uint8Array) :
  decodeBuffer up low buffer
  = exec (decodeBuffer up low) buffer (route up low buffer).
Proof.
  unfold decodeBuffer at 1. simpl.
  destruct (route up low buffer) as [|e n|e n|e] eqn:Hr; simpl; try reflexivity.
  - apply route_consumed in Hr. unfold maybeMultiple.
    destruct (n =? length buffer)%nat eqn:Hn; [reflexivity|].
    apply Nat.eqb_neq in Hn.
    rewrite (proj1 (decodeBuffer_fuel_enough up low (length buffer)
                                             (slice_from buffer n)
               ltac:(rewrite length_slice_from; lia))).
    reflexivity.
  - apply route_pushed in Hr. unfold pushTail.
    rewrite (proj1 (decodeBuffer_fuel_enough up low (length buffer)
                                             (slice_from buffer n)
               ltac:(rewrite length_slice_from; lia))).
    reflexivity.
Qed.

(** ** Modifier resolver *)

(** C2.  For every key and every digit byte [d] in "1".."9", the resolver
    works on [numeric = d - "1"]: the event keeps the key, [shift] is
    bit 0 of [numeric], [alt] bit 1, [ctrl] bit 2, and [meta] is set when
    [numeric] is 0 or its bit 3 is set. *)
Theorem modifierKeypress_bits (k : jsstring) (d : Z) :
  Char.n1 <= d <= Char.n9 ->
  let numeric := d - Char.n1 in
  modifierKeypress k (Some d)
  = {| key := k;
       shift := Z.testbit numeric 0;
       ctrl := Z.testbit numeric 2;
       alt := Z.testbit numeric 1;
       meta := (numeric =? 0) || Z.testbit numeric 3 |}.
Proof.
  unfold Char.n1, Char.n9. intros Hd.
  assert (Hc : d = 49 \/ d = 50 \/ d = 51 \/ d = 52 \/ d = 53 \/ d = 54
               \/ d = 55 \/ d = 56 \/ d = 57) by lia.
  repeat (destruct Hc as [-> | Hc]); try subst d; reflexivity.
Qed.

Lemma modifierKeypress_bits_witness :
  Char.n1 <= 53 <= Char.n9
  /\ modifierKeypress (str "up") (Some 53)
     = {| key := str "up"; shift := false; ctrl := true; alt := false;
          meta := false |}.
Proof.
  assert (H : Char.n1 <= 53 <= Char.n9) by (unfold Char.n1, Char.n9; lia).
  split; [exact H | exact (modifierKeypress_bits (str "up") 53 H)].
Defined.

(** X13.  The older resolver of [src/decode.ts] agrees with the one above
    on the digits "1".."8". *)
Lemma standalone_modifierKeypress_digits (k : jsstring) (d : Z) :
  Char.n1 <= d <= Char.n8 ->
  Standalone.modifierKeypress k (Some d) = modifierKeypress k (Some d).
Proof.
  unfold Char.n1, Char.n8. intros Hd.
  assert (Hc : d = 49 \/ d = 50 \/ d = 51 \/ d = 52 \/ d = 53 \/ d = 54
               \/ d = 55 \/ d = 56) by lia.
  repeat (destruct Hc as [-> | Hc]); try subst d; reflexivity.
Qed.

(** It leaves [meta] unset on "9". *)
Lemma standalone_modifierKeypress_nine (k : jsstring) :
  meta (Standalone.modifierKeypress k (Some Char.n9)) = false
  /\ meta (modifierKeypress k (Some Char.n9)) = true.
Proof. split; reflexivity. Qed.

(** The stand-alone decoder reads the modifier form of the arrows one
    index further, and finds no key in ESC "[" "1" ";" "5" "A". *)
Lemma standalone_decodeBuffer_modified_arrow :
  Standalone.decodeBuffer [27; 91; 49; 59; 53; 65]
  = Standalone.keyPress (str "unknown <1>") false false false false.
Proof. reflexivity. Qed.

(** ** Legacy keys *)

Lemma decode_empty (up low : jsstring -> jsstring) :
  decodeBuffer up low [] = Some Null.
Proof. reflexivity. Qed.

(** C4.  A lone control byte in 1..26 other than 8 and 10 decodes to one
    event: byte 9 to the named key [tab] and byte 13 to [return], both
    without [ctrl]; every other one to the lowercase letter [chr (b + 96)]
    with [ctrl] and no other modifier.  The Tab and CR cases come before
    the ctrl+letter range. *)
Theorem control_byte_ordering (up low : jsstring -> jsstring) (b : Z) :
  1 <= b <= 26 -> b <> 8 -> b <> 10 ->
  let e := if b =? Char.Tab then plainKey (str "tab")
           else if b =? Char.CR then plainKey (str "return")
           else keyEvent (fromCharCode (b + 96)) false true false false in
  decodeXTermUtf8Key up low [b] = ReturnMaybeMultiple e 1
  /\ decodeBuffer up low [b] = Some (Events [e]).
Proof.
  intros Hb H8 H10.
  destruct b as [|p|p]; try lia.
  repeat match goal with q : positive |- _ => destruct q; try lia end;
    split; reflexivity.
Qed.

Lemma control_byte_ordering_witness :
  (1 <= 1 <= 26 /\ 1 <> 8 /\ 1 <> 10)
  /\ decodeXTermUtf8Key latin1_toUpperCase latin1_toLowerCase [1]
     = ReturnMaybeMultiple (keyEvent (str "a") false true false false) 1
  /\ decode [1] = Some (Events [keyEvent (str "a") false true false false]).
Proof.
  assert (H : 1 <= 1 <= 26) by lia.
  assert (H8 : 1 <> 8) by lia.
  assert (H10 : 1 <> 10) by lia.
  split; [auto|].
  exact (control_byte_ordering latin1_toUpperCase latin1_toLowerCase 1
                               H H8 H10).
Defined.

Lemma decode_tab_and_return (up low : jsstring -> jsstring) :
  decodeBuffer up low [Char.Tab] = Some (Events [plainKey (str "tab")])
  /\ decodeBuffer up low [Char.CR] = Some (Events [plainKey (str "return")]).
Proof. split; reflexivity. Qed.

(** ** CSI keys *)

Lemma route_csi (up low : jsstring -> jsstring) (buffer : Uint8Array) :
  idx buffer 0 = Some Char.ESC -> idx buffer 1 = Some Char.lbracket ->
  route up low buffer = decodeXTermCSIFunctionKeys buffer.
Proof.
  intros H0 H1. unfold route. rewrite H0, H1.
  apply idx_Some_lt in H1. apply Nat.ltb_lt in H1. rewrite H1.
  reflexivity.
Qed.

Lemma decodeBuffer_whole (up low : jsstring -> jsstring)
      (buffer : Uint8Array) (e : KeyEvent) :
  route up low buffer = ReturnMaybeMultiple e (length buffer) ->
  decodeBuffer up low buffer = Some (Events [e]).
Proof.
  intros Hr. rewrite decodeBuffer_unfold, Hr. simpl.
  unfold maybeMultiple. now rewrite Nat.eqb_refl.
Qed.

(** C5.  A buffer ESC "[" _ ";" m t whose terminator [t] is one of
    A, B, C, D, F, H decodes to the key up, down, right, left, end or home
    respectively, with the modifiers resolved from the byte [m] at index 4
    and a consumed length of 6; when the buffer holds nothing more, that
    event is the whole result. *)
Theorem csi_modified_arrow (up low : jsstring -> jsstring)
        (buffer : Uint8Array) (m t : Z) :
  idx buffer 0 = Some Char.ESC -> idx buffer 1 = Some Char.lbracket ->
  idx buffer 3 = Some Char.semicolon -> idx buffer 4 = Some m ->
  idx buffer 5 = Some t -> isArrowTerminator t = true ->
  let e := modifierKeypress (arrowName t) (Some m) in
  decodeXTermCSIFunctionKeys buffer = ReturnMaybeMultiple e 6
  /\ route up low buffer = ReturnMaybeMultiple e 6
  /\ (length buffer = 6%nat -> decodeBuffer up low buffer = Some (Events [e])).
Proof.
  intros H0 H1 H3 H4 H5 Ht e.
  assert (Hd : decodeXTermCSIFunctionKeys buffer = ReturnMaybeMultiple e 6).
  { unfold decodeXTermCSIFunctionKeys, csiArrowForm. subst e.
    rewrite H3, H4, H5.
    unfold isArrowTerminator in Ht. simpl in Ht.
    repeat (apply orb_prop in Ht; destruct Ht as [Ht|Ht]);
      try discriminate; apply Z.eqb_eq in Ht; subst t;
        simpl; rewrite orb_true_r, H5; reflexivity. }
  assert (Hr : route up low buffer = ReturnMaybeMultiple e 6)
    by (rewrite route_csi; assumption).
  repeat split; try assumption.
  intros Hlen. apply decodeBuffer_whole. now rewrite Hlen.
Qed.

Lemma csi_modified_arrow_witness :
  let buffer := [27; 91; 49; 59; 53; 65] in
  (idx buffer 0 = Some Char.ESC /\ idx buffer 1 = Some Char.lbracket
   /\ idx buffer 3 = Some Char.semicolon /\ idx buffer 4 = Some 53
   /\ idx buffer 5 = Some 65 /\ isArrowTerminator 65 = true)
  /\ decodeXTermCSIFunctionKeys buffer
     = ReturnMaybeMultiple (keyEvent (str "up") false true false false) 6
  /\ decode buffer
     = Some (Events [keyEvent (str "up") false true false false]).
Proof.
  intros buffer.
  pose proof (csi_modified_arrow latin1_toUpperCase latin1_toLowerCase
                buffer 53 65 eq_refl eq_refl eq_refl eq_refl eq_refl eq_refl)
    as (Hd & _ & Hw).
  split; [repeat split|].
  split; [exact Hd | exact (Hw eq_refl)].
Defined.

(** ** Consumed lengths handed to the splitter *)

(** C10.  Whenever one of the three decoders returns through
    [maybeMultiple], the consumed length it passes is at least 1 and at
    most the length of the buffer; the rest of the buffer is therefore
    strictly shorter than the buffer, and the splitter returns. *)
Theorem consumed_length_bounds (up low : jsstring -> jsstring)
        (buffer : Uint8Array) (e : KeyEvent) (consumed : nat) :
  decodeXTermUtf8Key up low buffer = ReturnMaybeMultiple e consumed
  \/ decodeXTermSS3FunctionKeys buffer = ReturnMaybeMultiple e consumed
  \/ decodeXTermCSIFunctionKeys buffer = ReturnMaybeMultiple e consumed ->
  (1 <= consumed <= length buffer)%nat
  /\ (length (slice_from buffer consumed) < length buffer)%nat
  /\ exists o, maybeMultiple (decodeBuffer up low) e buffer consumed = Some o.
Proof.
  intros H.
  assert (Hb : (1 <= consumed <= length buffer)%nat).
  { destruct H as [H|[H|H]];
      [apply utf8_consumed in H | apply ss3_consumed in H
       | apply csi_consumed in H]; exact H. }
  split; [exact Hb|]. split; [rewrite length_slice_from; lia|].
  unfold maybeMultiple.
  destruct (consumed =? length buffer)%nat; [eauto|].
  destruct (decodeBuffer_total up low (slice_from buffer consumed)) as [o ->].
  destruct o; eauto.
Qed.

Lemma consumed_length_bounds_witness :
  let buffer := [27; 91; 65; 98] in
  decodeXTermCSIFunctionKeys buffer
  = ReturnMaybeMultiple (plainKey (str "up")) 3
  /\ (1 <= 3 <= length buffer)%nat
  /\ (length (slice_from buffer 3) < length buffer)%nat
  /\ exists o, maybeMultiple decode (plainKey (str "up")) buffer 3 = Some o.
Proof.
  intros buffer.
  assert (H : decodeXTermCSIFunctionKeys buffer
              = ReturnMaybeMultiple (plainKey (str "up")) 3) by reflexivity.
  split; [exact H|].
  exact (consumed_length_bounds latin1_toUpperCase latin1_toLowerCase buffer
           (plainKey (str "up")) 3 (or_intror (or_intror H))).
Defined.

(** ** Where the decoders leave the specification *)

(** C3.  Alt+e-acute arrives as ESC 0xC3 0xA9: the character byte is at
    [startPos = 1] and announces two bytes.  The key returned is decoded
    from the whole buffer, prefix included, and not from the two bytes at
    [startPos]; and the cut buffer ESC 0xC3, shorter than [startPos + 2],
    yields an event instead of null. *)
Theorem utf8_key_takes_prefix (up low : jsstring -> jsstring) :
  wf_buffer [27; 195; 169] = true
  /\ (exists e,
      decodeXTermUtf8Key up low [27; 195; 169] = ReturnEvent e
      /\ key e = [27; 233]
      /\ textDecoder_decode (slice [27; 195; 169] 1 3) = [233])
  /\ (exists e,
         decodeXTermUtf8Key up low [27; 195] = ReturnEvent e
         /\ key e = [27; REPLACEMENT]
         /\ codePointsOf 195 = 2%nat).
Proof.
  split; [reflexivity|]. split; eexists; repeat split; reflexivity.
Qed.

(** Without a prefix the UTF-8 branch does what the specification says:
    null on a buffer shorter than announced, otherwise the key decoded
    from the announced bytes, the rest of the buffer being decoded next. *)
Lemma utf8_unprefixed (up low : jsstring -> jsstring) (buffer : Uint8Array)
      (charByte : Z) :
  idx buffer 0 = Some charByte -> 128 <= charByte <= 255 ->
  let L := codePointsOf charByte in
  let e := keyEvent (textDecoder_decode (slice buffer 0 L))
                    (shiftOf up low (textDecoder_decode (slice buffer 0 L)))
                    false false false in
  decodeXTermUtf8Key up low buffer
  = if (length buffer <? L)%nat then ReturnNull
    else if (L <? length buffer)%nat then ReturnPushed e L
    else ReturnEvent e.
Proof.
  intros H0 Hc L e.
  destruct buffer as [|b rest]; [discriminate|].
  unfold idx in H0. simpl in H0. injection H0 as ->.
  unfold decodeXTermUtf8Key.
  assert (Hm : jeq (idx (charByte :: rest) 0) Char.CANCEL = false)
    by (unfold idx, Char.CANCEL; simpl; lia).
  assert (He : jeq (idx (charByte :: rest) 0) Char.ESC = false)
    by (unfold idx, Char.ESC; simpl; lia).
  rewrite Hm, He, andb_false_r. simpl.
  replace ((Char.bang <=? charByte) && (charByte <=? Char.at_)
           || (Char.lbracket <=? charByte) && (charByte <=? Char.tilde))
    with false by (unfold Char.bang, Char.at_, Char.lbracket, Char.tilde; lia).
  replace ((Char.A <=? charByte) && (charByte <=? Char.Z_)) with false
    by (unfold Char.A, Char.Z_; lia).
  replace (switchKey charByte) with (@None (jsstring * bool)).
  2:{ unfold switchKey, Char.NULL, Char.SPACE, Char.LF, Char.CR, Char.ESC,
      Char.Backspace, Char.DEL, Char.Tab.
      repeat match goal with
             | |- context [?a =? ?b] =>
               replace (a =? b) with false by lia
             end.
      reflexivity. }
  replace ((1 <=? charByte) && (charByte <=? 26)) with false by lia.
  fold L.
  destruct (S (length rest) <? L)%nat eqn:H1; [reflexivity|].
  destruct (L <? S (length rest))%nat eqn:H2; [reflexivity|].
  apply Nat.ltb_ge in H1, H2.
  assert (HL : L = S (length rest)) by lia.
  subst e. unfold slice. rewrite HL. simpl.
  now rewrite firstn_all.
Qed.

(** C7.  The meta prefix followed by a lone ESC: the ESC is taken for the
    alt prefix although nothing follows it, no character byte is left, and
    the result is null where the specification has the key [escape]. *)
Theorem meta_prefix_lone_escape (up low : jsstring -> jsstring) :
  wf_buffer [Char.CANCEL; Char.at_; Char.s; Char.ESC] = true
  /\ altPrefix [Char.CANCEL; Char.at_; Char.s; Char.ESC] = true
  /\ decodeXTermUtf8Key up low [Char.CANCEL; Char.at_; Char.s; Char.ESC]
     = ReturnNull
  /\ decodeBuffer up low [Char.CANCEL; Char.at_; Char.s; Char.ESC]
     = Some Null.
Proof. repeat split; reflexivity. Qed.

(** Without the meta prefix the lone ESC is the key [escape]. *)
Lemma lone_escape (up low : jsstring -> jsstring) :
  decodeBuffer up low [Char.ESC] = Some (Events [plainKey (str "escape")]).
Proof. reflexivity. Qed.

(** C8.  ESC "O" "z" is decoded by the SS3 branch, which does not bound the
    function number: the key is [f43], outside the vocabulary. *)
Theorem ss3_key_outside_vocabulary (up low : jsstring -> jsstring) :
  wf_buffer [27; 79; 122] = true
  /\ decodeBuffer up low [27; 79; 122]
     = Some (Events [plainKey (str "f43")])
  /\ inVocabulary (str "f43") = false.
Proof. repeat split; reflexivity. Qed.

(** Other keys outside the vocabulary: a function number past 12 in the
    F5..F12 scheme, two characters from a UTF-8 lead byte followed by a
    letter, and the empty key from a byte order mark. *)
Lemma more_keys_outside_vocabulary (up low : jsstring -> jsstring) :
  decodeBuffer up low [27; 91; 50; 57; 126]
  = Some (Events [plainKey (str "f17")])
  /\ (exists e, decodeBuffer up low [195; 97] = Some (Events [e])
                /\ key e = [REPLACEMENT; 97])
  /\ (exists e, decodeBuffer up low [239; 187; 191] = Some (Events [e])
                /\ key e = []).
Proof.
  split; [reflexivity|]. split; eexists; split; reflexivity.
Qed.

(** C9.  Two e-acute, the second one cut after its first byte: the first
    character is decoded, the rest decodes to null, and spreading that
    null into the event array raises a TypeError. *)
Theorem decodeBuffer_raises (up low : jsstring -> jsstring) :
  wf_buffer [195; 169; 195] = true
  /\ decodeBuffer up low [195; 169; 195] = Some Throws
  /\ decodeBuffer up low [195] = Some Null.
Proof. repeat split; reflexivity. Qed.

(** ** Decoding a buffer cut after the first sequence

    When the first sequence of a buffer consumes [c] bytes, the decoders
    give the same event on the buffer cut at any [n >= c], unless they
    looked past the bytes consumed.  The proofs run both decoders side by
    side, one test at a time. *)

Lemma idx_firstn (B : Uint8Array) (n i : nat) :
  idx (firstn n B) i = if (i <? n)%nat then idx B i else None.
Proof. apply nth_error_firstn. Qed.

Lemma idx_if (B : Uint8Array) (c : bool) (i j : nat) :
  idx B (if c then i else j) = if c then idx B i else idx B j.
Proof. now destruct c. Qed.

(** The test a term is waiting for: the innermost scrutinee at its head. *)
Ltac pending_test c :=
  lazymatch c with
  | match ?c' with _ => _ end => pending_test c'
  | ?a || _ => pending_test a
  | ?a && _ => pending_test a
  | negb ?a => pending_test a
  | true => fail
  | false => fail
  | _ => c
  end.
Ltac head_test t :=
  lazymatch t with
  | match ?c with _ => _ end => pending_test c
  end.

Ltac reduce := cbn [orb andb negb option_map].

(** Comparisons in hypotheses, from [bool] to [Prop]. *)
Ltac bool2prop :=
  repeat match goal with
         | H : (_ =? _) = true |- _ => apply Z.eqb_eq in H
         | H : (_ =? _) = false |- _ => apply Z.eqb_neq in H
         | H : (_ <=? _) = true |- _ => apply Z.leb_le in H
         | H : (_ <=? _) = false |- _ => apply Z.leb_gt in H
         | H : (_ <? _) = true |- _ => apply Z.ltb_lt in H
         | H : (_ <? _) = false |- _ => apply Z.ltb_ge in H
         | H : (_ <? _)%nat = true |- _ => apply Nat.ltb_lt in H
         | H : (_ <? _)%nat = false |- _ => apply Nat.ltb_ge in H
         | H : (_ =? _)%nat = true |- _ => apply Nat.eqb_eq in H
         | H : (_ =? _)%nat = false |- _ => apply Nat.eqb_neq in H
         end.

(** The comparisons of lengths and indices in the context contradict
    each other. *)
Ltac absurd_nat :=
  exfalso;
  repeat match goal with
         | H : (_ <? _)%nat = true |- _ => apply Nat.ltb_lt in H
         | H : (_ <? _)%nat = false |- _ => apply Nat.ltb_ge in H
         end; lia.

(** Following the decoder in the premise [t = r -> _], then the one in
    the goal [t = r], by cases on the test each is waiting for. *)
Ltac follow_premise :=
  repeat lazymatch goal with
         | |- ?t = _ -> _ =>
           let a := head_test t in destruct a eqn:?; reduce
         end.
Ltac follow_goal :=
  repeat lazymatch goal with
         | |- ?t = _ =>
           let a := head_test t in destruct a eqn:?; reduce; try absurd_nat
         end.

(** Where [n] stands among the indices read. *)
Ltac place n :=
  repeat match goal with
         | |- context [(?i <? n)%nat] =>
           destruct (i <? n)%nat eqn:?; try absurd_nat
         end;
  reduce.

Ltac char_values :=
  cbv delta [Char.NULL Char.Backspace Char.Tab Char.LF Char.CR Char.CANCEL
             Char.ESC Char.SPACE Char.bang Char.semicolon Char.n0 Char.n1
             Char.n2 Char.n3 Char.n4 Char.n5 Char.n6 Char.n7 Char.n8 Char.n9
             Char.at_ Char.A Char.B Char.C Char.D Char.F Char.H Char.M Char.O
             Char.Z_ Char.lbracket Char.a Char.s Char.z Char.tilde Char.DEL]
    in *.

(** Both decoders arrived: at the same return, or on tests that
    contradict each other. *)
Ltac finish :=
  first [reflexivity | discriminate | exfalso; bool2prop; char_values; lia].

Lemma ss3_truncate (B : Uint8Array) (e : KeyEvent) (c n : nat) :
  decodeXTermSS3FunctionKeys B = ReturnMaybeMultiple e c ->
  (c <= n)%nat ->
  decodeXTermSS3FunctionKeys (firstn n B) = ReturnMaybeMultiple e c.
Proof.
  intros Hr Hn. revert Hr.
  unfold decodeXTermSS3FunctionKeys, jeq, jgt, jsub.
  rewrite !idx_firstn, length_firstn.
  generalize (idx B 2), (idx B 3). intros v2 v3.
  place n; follow_premise;
    (intros Hr; try discriminate Hr; inversion Hr; subst; clear Hr);
    try absurd_nat; follow_goal; finish.
Qed.

Ltac unfold_csi :=
  unfold decodeXTermCSIFunctionKeys, csiArrowForm, csiEditForm, csiPlainF1toF4,
    csiModifiedF1toF4, arrowKey, editKey, isF1toF4,
    skipAbove, jne, jeq, jge, jle, jgt, jlt, jsub, jadd;
  cbv zeta.

(** The CSI decoder on a cut buffer; the Shift+Tab read behind a ";" is
    the one return that depends on bytes past the consumed ones. *)
Lemma csi_truncate (B : Uint8Array) (e : KeyEvent) (c n : nat) :
  decodeXTermCSIFunctionKeys B = ReturnMaybeMultiple e c ->
  (jeq (idx B 2) Char.Z_ || (jge (idx B 2) Char.A && jle (idx B 2) Char.H))
  && jeq (idx B 3) Char.semicolon && jeq (idx B 5) Char.Z_ = false ->
  (c <= n)%nat ->
  decodeXTermCSIFunctionKeys (firstn n B) = ReturnMaybeMultiple e c.
Proof.
  intros Hr Hq Hn. revert Hr Hq.
  unfold_csi.
  rewrite !idx_if, !idx_firstn, length_firstn.
  generalize (idx B 2), (idx B 3), (idx B 4), (idx B 5), (idx B 6).
  intros v2 v3 v4 v5 v6.
  place n; follow_premise;
    (intros Hr; try discriminate Hr; inversion Hr; subst; clear Hr);
    try absurd_nat;
    (intros Hq; try discriminate Hq);
    follow_goal; finish.
Qed.

Lemma decodeXTermUtf8Key_view (up low : jsstring -> jsstring)
      (buffer : Uint8Array) :
  decodeXTermUtf8Key up low buffer
  = match idx buffer (startPosOf buffer) with
    | None => ReturnNull
    | Some charByte =>
      decodeCharByte up low buffer (metaPrefix buffer) (altPrefix buffer)
                     (startPosOf buffer) charByte
    end.
Proof. reflexivity. Qed.

(** A character byte that gives a key through the splitter does so
    whatever the buffer around it. *)
Lemma decodeCharByte_consumed (up low : jsstring -> jsstring)
      (B B' : Uint8Array) (meta alt : bool) (startPos : nat) (charByte : Z)
      (e : KeyEvent) (c : nat) :
  decodeCharByte up low B meta alt startPos charByte
  = ReturnMaybeMultiple e c ->
  c = (startPos + 1)%nat
  /\ decodeCharByte up low B' meta alt startPos charByte
     = ReturnMaybeMultiple e c.
Proof.
  unfold decodeCharByte. cbv zeta.
  follow_premise; intros Hr; try discriminate Hr; inversion Hr; subst;
    split; reflexivity.
Qed.

(** The prefixes found are the same on a buffer cut after the character
    byte. *)
Lemma prefix_truncate (B : Uint8Array) (n : nat) (charByte : Z) :
  idx B (startPosOf B) = Some charByte ->
  (startPosOf B + 1 <= n)%nat ->
  metaPrefix (firstn n B) = metaPrefix B
  /\ altPrefix (firstn n B) = altPrefix B.
Proof.
  unfold startPosOf, altPrefix, metaPrefix, jeq.
  rewrite !idx_firstn, length_firstn.
  intros Hc Hn.
  assert (Hl : (startPosOf B < length B)%nat) by (eapply idx_Some_lt; exact Hc).
  revert Hn Hl. clear Hc.
  unfold startPosOf, altPrefix, metaPrefix, jeq.
  generalize (idx B 0), (idx B 1), (idx B 2), (idx B 3).
  intros v0 v1 v2 v3.
  repeat match goal with
         | |- context [(?a <? ?b)%nat] => destruct (a <? b)%nat eqn:?
         end; reduce;
  repeat match goal with
         | |- context [match ?v with Some _ => _ | None => _ end] =>
           is_var v; destruct v
         end; reduce;
  repeat match goal with
         | |- context [?a =? ?b] => destruct (a =? b) eqn:?
         end; reduce; intros; split;
    first [reflexivity | exfalso; bool2prop; char_values; lia].
Qed.

Lemma utf8_truncate (up low : jsstring -> jsstring) (B : Uint8Array)
      (e : KeyEvent) (c n : nat) :
  decodeXTermUtf8Key up low B = ReturnMaybeMultiple e c ->
  (c <= n)%nat ->
  decodeXTermUtf8Key up low (firstn n B) = ReturnMaybeMultiple e c.
Proof.
  rewrite !decodeXTermUtf8Key_view.
  destruct (idx B (startPosOf B)) as [charByte|] eqn:Hc; [|discriminate].
  intros Hr Hn.
  destruct (decodeCharByte_consumed up low B (firstn n B) _ _ _ _ _ _ Hr)
    as [-> Hr'].
  destruct (prefix_truncate B n charByte Hc Hn) as [Hm Ha].
  unfold startPosOf at 1 2. rewrite Hm, Ha. fold (startPosOf B).
  rewrite idx_firstn.
  replace (startPosOf B <? n)%nat with true
    by (symmetry; apply Nat.ltb_lt; lia).
  rewrite Hc. exact Hr'.
Qed.

Lemma slice_firstn (B : Uint8Array) (n m : nat) :
  (m <= n)%nat -> slice (firstn n B) 0 m = slice B 0 m.
Proof.
  intros H. unfold slice. cbn [skipn]. rewrite firstn_firstn.
  now rewrite Nat.min_l by lia.
Qed.

(** A UTF-8 character with no prefix: cut right after it, the buffer is
    the character alone; cut further on, more bytes still follow. *)
Lemma utf8_truncate_pushed (up low : jsstring -> jsstring) (B : Uint8Array)
      (e : KeyEvent) (c n : nat) :
  decodeXTermUtf8Key up low B = ReturnPushed e c ->
  jeq (idx B 0) Char.ESC || jeq (idx B 0) Char.CANCEL = false ->
  (c <= n)%nat ->
  decodeXTermUtf8Key up low (firstn n B)
  = if (n =? c)%nat then ReturnEvent e else ReturnPushed e c.
Proof.
  intros Hr Hp Hn.
  apply orb_false_elim in Hp. destruct Hp as [Hesc Hcan].
  pose proof (utf8_pushed _ _ _ _ _ Hr) as Hc.
  assert (Hm : metaPrefix B = false) by (unfold metaPrefix; now rewrite Hcan).
  assert (Ha : altPrefix B = false)
    by (unfold altPrefix; now rewrite Hm, Hesc, andb_false_r).
  assert (Hm' : metaPrefix (firstn n B) = false).
  { unfold metaPrefix. rewrite idx_firstn.
    replace (0 <? n)%nat with true by (symmetry; apply Nat.ltb_lt; lia).
    now rewrite Hcan. }
  assert (Ha' : altPrefix (firstn n B) = false).
  { unfold altPrefix. rewrite Hm'. cbn [andb orb]. rewrite idx_firstn.
    replace (0 <? n)%nat with true by (symmetry; apply Nat.ltb_lt; lia).
    now rewrite Hesc, andb_false_r. }
  revert Hr. rewrite !decodeXTermUtf8Key_view.
  unfold startPosOf. rewrite Hm, Ha, Hm', Ha'. cbn [Nat.add].
  rewrite idx_firstn.
  replace (0 <? n)%nat with true by (symmetry; apply Nat.ltb_lt; lia).
  destruct (idx B 0) as [charByte|]; [|discriminate].
  unfold decodeCharByte. cbv zeta. rewrite length_firstn.
  follow_premise; intros Hr; try discriminate Hr; inversion Hr; subst; clear Hr.
  all: cbn [Nat.add] in *.
  all: repeat match goal with
              | H : (_ <? _)%nat = _ |- _ => revert H
              end.
  all: set (L := codePointsOf charByte) in *; intros; bool2prop.
  all: replace (Nat.min n (length B) <? L)%nat with false
    by (symmetry; apply Nat.ltb_ge; lia).
  all: rewrite slice_firstn by lia.
  all: destruct (n =? L)%nat eqn:E; bool2prop;
    [ subst n;
      replace (L <? Nat.min L (length B))%nat with false
        by (symmetry; apply Nat.ltb_ge; lia);
      unfold slice; cbn [skipn]; now rewrite Nat.sub_0_r
    | replace (L <? Nat.min n (length B))%nat with true
        by (symmetry; apply Nat.ltb_lt; lia);
      reflexivity ].
Qed.

Lemma csi_consumed_min (buffer : Uint8Array) (e : KeyEvent) (n : nat) :
  decodeXTermCSIFunctionKeys buffer = ReturnMaybeMultiple e n -> (3 <= n)%nat.
Proof.
  unfold decodeXTermCSIFunctionKeys. cbv zeta.
  intros H; split_tests; inversion H; lia.
Qed.

Lemma ss3_consumed_min (buffer : Uint8Array) (e : KeyEvent) (n : nat) :
  decodeXTermSS3FunctionKeys buffer = ReturnMaybeMultiple e n -> (3 <= n)%nat.
Proof.
  unfold decodeXTermSS3FunctionKeys.
  intros H; split_tests; inversion H; lia.
Qed.

(** The routing tests of the dispatcher on a cut buffer. *)
Lemma routing_truncate (B : Uint8Array) (n : nat) :
  (2 <= n)%nat ->
  (1 <? length (firstn n B))%nat = (1 <? length B)%nat
  /\ idx (firstn n B) 0 = idx B 0 /\ idx (firstn n B) 1 = idx B 1.
Proof.
  intros Hn. rewrite !idx_firstn, length_firstn.
  replace (0 <? n)%nat with true by (symmetry; apply Nat.ltb_lt; lia).
  replace (1 <? n)%nat with true by (symmetry; apply Nat.ltb_lt; lia).
  repeat split.
  destruct (1 <? length B)%nat eqn:E; bool2prop;
    [apply Nat.ltb_lt | apply Nat.ltb_ge]; lia.
Qed.

Lemma routing_single (B : Uint8Array) :
  (1 <? length (firstn 1 B))%nat = false /\ idx (firstn 1 B) 1 = None
  /\ idx (firstn 1 B) 0 = idx B 0.
Proof.
  rewrite !idx_firstn, length_firstn. repeat split.
  apply Nat.ltb_ge. lia.
Qed.

Lemma route_truncate (up low : jsstring -> jsstring) (B : Uint8Array)
      (e : KeyEvent) (c n : nat) :
  route up low B = ReturnMaybeMultiple e c ->
  shiftTabBehindSemicolon B = false ->
  (c <= n)%nat ->
  route up low (firstn n B) = ReturnMaybeMultiple e c.
Proof.
  intros Hr Hq Hn. pose proof (route_consumed _ _ _ _ _ Hr) as Hc.
  revert Hr Hq. unfold route, shiftTabBehindSemicolon.
  destruct (le_lt_dec 2 n) as [H2|H2].
  - destruct (routing_truncate B n H2) as (-> & -> & ->).
    destruct (_ && _ && jeq (idx B 1) Char.lbracket) eqn:G1.
    + apply andb_prop in G1. destruct G1 as [G1 G12].
      apply andb_prop in G1. destruct G1 as [_ G11].
      rewrite G11, G12. cbn [andb]. intros Hr Hq.
      now apply csi_truncate.
    + destruct (jeq (idx B 0) Char.ESC && jeq (idx B 1) Char.O) eqn:G2.
      * intros Hr _. now apply ss3_truncate.
      * intros Hr _. now apply utf8_truncate.
  - assert (n = 1%nat) by lia. subst n.
    assert (c = 1%nat) by lia. subst c.
    destruct (routing_single B) as (-> & -> & ->).
    cbn [andb jeq]. rewrite andb_false_r.
    destruct (_ && _ && jeq (idx B 1) Char.lbracket) eqn:G1.
    + intros Hr. apply csi_consumed_min in Hr. lia.
    + destruct (jeq (idx B 0) Char.ESC && jeq (idx B 1) Char.O) eqn:G2.
      * intros Hr. apply ss3_consumed_min in Hr. lia.
      * intros Hr _. now apply utf8_truncate.
Qed.

Lemma route_truncate_pushed (up low : jsstring -> jsstring) (B : Uint8Array)
      (e : KeyEvent) (c n : nat) :
  route up low B = ReturnPushed e c ->
  jeq (idx B 0) Char.ESC || jeq (idx B 0) Char.CANCEL = false ->
  (c <= n)%nat ->
  route up low (firstn n B)
  = if (n =? c)%nat then ReturnEvent e else ReturnPushed e c.
Proof.
  intros Hr Hp Hn. pose proof (route_pushed _ _ _ _ _ Hr) as Hc.
  pose proof Hp as Hp'. apply orb_false_elim in Hp'. destruct Hp' as [Hesc _].
  revert Hr. unfold route.
  rewrite idx_firstn.
  replace (0 <? n)%nat with true by (symmetry; apply Nat.ltb_lt; lia).
  rewrite Hesc, !andb_false_r. cbn [andb].
  intros Hr. now apply utf8_truncate_pushed.
Qed.

(** ** Splitting a buffer between two sequences *)

(** ESC "[" "A" ";" "1" "Z": the arrow branch sees the ";" at index 3, reads
    the terminator "Z" at index 5 and returns Shift+Tab with a consumed
    length of 3, so the whole decodes to [tab], ";", "1", "Z" with a
    boundary at 3; the first three bytes alone are the key [up]. *)
Lemma splitting_fails_at_shift_tab (up low : jsstring -> jsstring) :
  let B := [27; 91; 65; 59; 49; 90] in
  wf_buffer B = true
  /\ exists E E1 E2,
      decodeBuffer up low B = Some (Events E)
      /\ boundary up low B 3 = true
      /\ decodeBuffer up low (firstn 3 B) = Some (Events E1)
      /\ decodeBuffer up low (skipn 3 B) = Some (Events E2)
      /\ map key E = [str "tab"; str ";"; str "1"; str "Z"]
      /\ map key (E1 ++ E2) = [str "up"; str ";"; str "1"; str "Z"].
Proof.
  split; [reflexivity|]. do 3 eexists. repeat split; reflexivity.
Qed.

(** C1, as stated: the splitting property fails, whatever the case
    mapping of the platform. *)
Lemma splitting_property_fails :
  ~ exists up low, splitting_property up low.
Proof.
  intros (up & low & H).
  destruct (H [27; 91; 65; 59; 49; 90] _ 3%nat eq_refl eq_refl)
    as (E1 & E2 & H1 & H2 & H3).
  vm_compute in H1, H2.
  injection H1 as <-. injection H2 as <-. discriminate H3.
Qed.

(** ESC 0xC3 0xA9 "a": the alt prefix, e-acute and the letter a.  Cut
    after the character, the first part gives a key made of the ESC and
    the character. *)
Lemma splitting_fails_at_prefixed_utf8 (up low : jsstring -> jsstring) :
  let B := [27; 195; 169; 97] in
  exists E E1 E2,
    decodeBuffer up low B = Some (Events E)
    /\ boundary up low B 3 = true
    /\ decodeBuffer up low (firstn 3 B) = Some (Events E1)
    /\ decodeBuffer up low (skipn 3 B) = Some (Events E2)
    /\ map key E = [[233]; [97]]
    /\ map key (E1 ++ E2) = [[27; 233]; [97]].
Proof.
  do 3 eexists. repeat split; reflexivity.
Qed.

Lemma isEvents_inv (o : option outcome) :
  isEvents o = true -> exists es, o = Some (Events es).
Proof. destruct o as [[| |es]|]; try discriminate. eauto. Qed.

(** The splitting property at a boundary with no look ahead before it,
    by induction on the number of sequences before the boundary. *)
Lemma splitting_at_plain_boundary (up low : jsstring -> jsstring) :
  forall (fuel : nat) (B : Uint8Array) (k : nat) (E : list KeyEvent),
    boundary_fuel (fun b => negb (looksAhead up low b)) up low fuel B k
    = true ->
    decodeBuffer up low B = Some (Events E) ->
    exists E1 E2,
      decodeBuffer up low (firstn k B) = Some (Events E1)
      /\ decodeBuffer up low (skipn k B) = Some (Events E2)
      /\ E1 ++ E2 = E.
Proof.
  induction fuel as [|fuel IH]; intros B k E Hb Hd; [discriminate|].
  cbn [boundary_fuel] in Hb.
  rewrite decodeBuffer_unfold in Hd.
  destruct (route up low B) as [|e c|e c|e] eqn:Hr; try discriminate Hb.
  - (* the first sequence went through the splitter *)
    apply andb_prop in Hb. destruct Hb as [Hb Hk].
    apply andb_prop in Hb. destruct Hb as [Hb Ht].
    apply andb_prop in Hb. destruct Hb as [Hok Hlen].
    apply negb_true_iff, orb_false_elim in Hok. destruct Hok as [Hq _].
    apply Nat.ltb_lt in Hlen.
    apply isEvents_inv in Ht. destruct Ht as [Et Ht].
    cbn [exec] in Hd. unfold maybeMultiple in Hd.
    replace (c =? length B)%nat with false in Hd
      by (symmetry; apply Nat.eqb_neq; lia).
    rewrite Ht in Hd. injection Hd as <-.
    apply orb_prop in Hk. destruct Hk as [Hk|Hk].
    + apply Nat.eqb_eq in Hk. subst k.
      exists [e], Et. repeat split; [|exact Ht].
      rewrite decodeBuffer_unfold, (route_truncate _ _ _ _ _ c Hr Hq)
        by lia.
      cbn [exec]. unfold maybeMultiple.
      rewrite length_firstn, Nat.min_l, Nat.eqb_refl by lia. reflexivity.
    + apply andb_prop in Hk. destruct Hk as [Hck Hk].
      apply Nat.ltb_lt in Hck.
      destruct (IH _ _ _ Hk Ht) as (E1 & E2 & H1 & H2 & <-).
      exists (e :: E1), E2. repeat split.
      * rewrite decodeBuffer_unfold, (route_truncate _ _ _ _ _ k Hr Hq)
          by lia.
        cbn [exec]. unfold maybeMultiple.
        replace (c =? length (firstn k B))%nat with false
          by (symmetry; apply Nat.eqb_neq; rewrite length_firstn; lia).
        unfold slice_from in *. rewrite skipn_firstn_comm, H1. reflexivity.
      * unfold slice_from in H2. rewrite skipn_skipn in H2.
        now replace (k - c + c)%nat with k in H2 by lia.
  - (* the first sequence is a UTF-8 character followed by more bytes *)
    apply andb_prop in Hb. destruct Hb as [Hb Hk].
    apply andb_prop in Hb. destruct Hb as [Hb Ht].
    apply andb_prop in Hb. destruct Hb as [Hok Hlen].
    apply negb_true_iff, orb_false_elim in Hok. destruct Hok as [_ Hp].
    unfold prefixedUtf8 in Hp. rewrite Hr in Hp.
    apply Nat.ltb_lt in Hlen.
    apply isEvents_inv in Ht. destruct Ht as [Et Ht].
    cbn [exec] in Hd. unfold pushTail in Hd.
    rewrite Ht in Hd. injection Hd as <-.
    apply orb_prop in Hk. destruct Hk as [Hk|Hk].
    + apply Nat.eqb_eq in Hk. subst k.
      exists [e], Et. repeat split; [|exact Ht].
      rewrite decodeBuffer_unfold, (route_truncate_pushed _ _ _ _ _ c Hr Hp)
        by lia.
      now rewrite Nat.eqb_refl.
    + apply andb_prop in Hk. destruct Hk as [Hck Hk].
      apply Nat.ltb_lt in Hck.
      destruct (IH _ _ _ Hk Ht) as (E1 & E2 & H1 & H2 & <-).
      exists (e :: E1), E2. repeat split.
      * rewrite decodeBuffer_unfold, (route_truncate_pushed _ _ _ _ _ k Hr Hp)
          by lia.
        replace (k =? c)%nat with false
          by (symmetry; apply Nat.eqb_neq; lia).
        cbn [exec]. unfold pushTail.
        unfold slice_from in *. rewrite skipn_firstn_comm, H1. reflexivity.
      * unfold slice_from in H2. rewrite skipn_skipn in H2.
        now replace (k - c + c)%nat with k in H2 by lia.
Qed.

(** C1, amended.  For every buffer [B] that decodes to the events [E] and
    every offset [k] at which an event of [E] other than the first starts,
    when no sequence of [B] before [k] is decoded with a look past its
    own bytes, decoding [B[0:k]] and [B[k:]] separately gives two lists
    whose concatenation is [E]. *)
Theorem splitting_without_lookahead (up low : jsstring -> jsstring)
        (B : Uint8Array) (E : list KeyEvent) (k : nat) :
  decodeBuffer up low B = Some (Events E) ->
  plainBoundary up low B k = true ->
  exists E1 E2,
    decodeBuffer up low (firstn k B) = Some (Events E1)
    /\ decodeBuffer up low (skipn k B) = Some (Events E2)
    /\ E1 ++ E2 = E.
Proof.
  intros Hd Hb. exact (splitting_at_plain_boundary up low _ B k E Hb Hd).
Qed.

Lemma splitting_without_lookahead_witness :
  let B := [97; 98] in
  let E := [plainKey (str "a"); plainKey (str "b")] in
  (decode B = Some (Events E)
   /\ plainBoundary latin1_toUpperCase latin1_toLowerCase B 1 = true)
  /\ exists E1 E2,
      decode (firstn 1 B) = Some (Events E1)
      /\ decode (skipn 1 B) = Some (Events E2)
      /\ E1 ++ E2 = E.
Proof.
  intros B E.
  assert (Hd : decode B = Some (Events E)) by reflexivity.
  assert (Hb : plainBoundary latin1_toUpperCase latin1_toLowerCase B 1 = true)
    by reflexivity.
  split; [split; [exact Hd | exact Hb]|].
  exact (splitting_without_lookahead latin1_toUpperCase latin1_toLowerCase
           B E 1 Hd Hb).
Defined.

(** * Further properties of the decoders *)

(** ** The text decoder reads back what the encoder writes *)

(** Linear arithmetic with division and remainder by a constant. *)
Ltac zdiv := Z.to_euclidean_division_equations; lia.

Lemma lor_disjoint (c y n : Z) :
  0 <= n -> 0 <= y < 2 ^ n -> Z.lor (c * 2 ^ n) y = c * 2 ^ n + y.
Proof.
  intros Hn Hy.
  assert (H0 : Z.land (c * 2 ^ n) y = 0).
  { apply Z.bits_inj'. intros i Hi.
    rewrite Z.land_spec, Z.bits_0.
    destruct (Z.lt_ge_cases i n) as [Hlt|Hge].
    - now rewrite Z.mul_pow2_bits_low.
    - rewrite <- (Z.mod_small y (2 ^ n)) by lia.
      rewrite Z.mod_pow2_bits_high by lia. apply andb_false_r. }
  pose proof (Z.add_lor_land (c * 2 ^ n) y) as H. rewrite H0 in H. lia.
Qed.

Lemma continuation_byte (v : Z) :
  0 <= v -> Z.lor 0x80 (Z.land v 0x3F) = 128 + v mod 64.
Proof.
  intros Hv. change 0x3F with (Z.ones 6). rewrite Z.land_ones by lia.
  change (2 ^ 6) with 64.
  change 0x80 with (2 * 2 ^ 6). rewrite lor_disjoint; change (2 ^ 6) with 64;
    try lia.
  zdiv.
Qed.

Lemma utf8_encode_bytes (cp : Z) :
  0 <= cp ->
  utf8_encode cp
  = if cp <? 0x80 then [cp]
    else if cp <? 0x800 then [192 + cp / 64; 128 + cp mod 64]
    else if cp <? 0x10000 then
      [224 + cp / 4096; 128 + (cp / 64) mod 64; 128 + cp mod 64]
    else
      [240 + cp / 262144; 128 + (cp / 4096) mod 64; 128 + (cp / 64) mod 64;
       128 + cp mod 64].
Proof.
  intros Hcp. unfold utf8_encode. cbv zeta.
  change (6 * 0) with 0. change (6 * 1) with 6. change (6 * 2) with 12.
  rewrite Z.shiftr_0_r.
  rewrite !Z.shiftr_div_pow2 by lia.
  change (2 ^ 6) with 64. change (2 ^ 12) with 4096.
  change (2 ^ 18) with 262144.
  rewrite !continuation_byte by (try apply Z.div_pos; lia).
  repeat match goal with |- context [if ?c then _ else _] => destruct c end;
    repeat (f_equal; try lia).
Qed.

(** A continuation byte in range adds its six bits to the code point. *)
Lemma utf8_step_continuation (st : utf8_state) (y : Z) :
  bytes_needed st <> 0%nat -> 0 <= y < 64 ->
  lower_boundary st <= 128 + y <= upper_boundary st ->
  utf8_step st (128 + y)
  = if (S (bytes_seen st) =? bytes_needed st)%nat
    then ([code_point st * 64 + y], utf8_init)
    else ([], mkUtf8 (code_point st * 64 + y) (S (bytes_seen st))
                     (bytes_needed st) 0x80 0xBF).
Proof.
  intros Hn Hy Hr. unfold utf8_step.
  replace (bytes_needed st =? 0)%nat with false
    by (symmetry; now apply Nat.eqb_neq).
  replace ((lower_boundary st <=? 128 + y) && (128 + y <=? upper_boundary st))
    with true by (symmetry; apply andb_true_intro; split; apply Z.leb_le; lia).
  cbn [negb].
  change 0x3F with (Z.ones 6). rewrite Z.land_ones by lia.
  change (2 ^ 6) with 64.
  replace ((128 + y) mod 64) with y by zdiv.
  rewrite Z.shiftl_mul_pow2 by lia.
  rewrite lor_disjoint by (change (2 ^ 6) with 64; lia).
  change (2 ^ 6) with 64. reflexivity.
Qed.

Lemma utf8_run_cons (st : utf8_state) (b : Z) (rest : list Z) :
  utf8_run st (b :: rest)
  = fst (utf8_step st b) ++ utf8_run (snd (utf8_step st b)) rest.
Proof. cbn [utf8_run]. now destruct (utf8_step st b). Qed.

(** Lead bytes, by cases. *)
Lemma utf8_lead_two (x : Z) :
  2 <= x < 32 -> utf8_lead (192 + x) = ([], mkUtf8 x 0 1 0x80 0xBF).
Proof.
  intros Hx. destruct x as [|p|p]; try lia.
  repeat match goal with q : positive |- _ => destruct q; try lia end;
    reflexivity.
Qed.

Lemma utf8_lead_three (x : Z) :
  0 <= x < 16 ->
  utf8_lead (224 + x)
  = ([], mkUtf8 x 0 2 (if x =? 0 then 0xA0 else 0x80)
                (if x =? 13 then 0x9F else 0xBF)).
Proof.
  intros Hx. destruct x as [|p|p]; try lia; [reflexivity|].
  repeat match goal with q : positive |- _ => destruct q; try lia end;
    reflexivity.
Qed.

Lemma utf8_lead_four (x : Z) :
  0 <= x <= 4 ->
  utf8_lead (240 + x)
  = ([], mkUtf8 x 0 3 (if x =? 0 then 0x90 else 0x80)
                (if x =? 4 then 0x8F else 0xBF)).
Proof.
  intros Hx. destruct x as [|p|p]; try lia; [reflexivity|].
  repeat match goal with q : positive |- _ => destruct q; try lia end;
    reflexivity.
Qed.

(** Decoding what the encoder wrote gives the code point back. *)
Lemma utf8_run_encode (cp : Z) :
  isScalar cp = true -> utf8_run utf8_init (utf8_encode cp) = [cp].
Proof.
  unfold isScalar. intros Hs.
  apply andb_prop in Hs. destruct Hs as [Hs Hsur].
  apply andb_prop in Hs. destruct Hs as [H0 Hmax].
  apply Z.leb_le in H0, Hmax. apply negb_true_iff in Hsur.
  rewrite utf8_encode_bytes by lia.
  destruct (cp <? 0x80) eqn:E1; [|destruct (cp <? 0x800) eqn:E2;
    [|destruct (cp <? 0x10000) eqn:E3]].
  - apply Z.ltb_lt in E1. rewrite utf8_run_cons.
    unfold utf8_step, utf8_lead. cbn [utf8_init bytes_needed Nat.eqb].
    replace ((0 <=? cp) && (cp <=? 0x7F)) with true
      by (symmetry; apply andb_true_intro; split; apply Z.leb_le; lia).
    reflexivity.
  - apply Z.ltb_ge in E1. apply Z.ltb_lt in E2.
    rewrite utf8_run_cons. unfold utf8_step at 1 2.
    cbn [utf8_init bytes_needed Nat.eqb].
    rewrite utf8_lead_two by zdiv. cbn [fst snd app].
    rewrite utf8_run_cons, utf8_step_continuation
      by (cbn [bytes_needed lower_boundary upper_boundary]; zdiv).
    cbn [bytes_seen bytes_needed code_point Nat.eqb fst snd utf8_run app].
    f_equal. zdiv.
  - apply Z.ltb_ge in E2. apply Z.ltb_lt in E3.
    rewrite utf8_run_cons. unfold utf8_step at 1 2.
    cbn [utf8_init bytes_needed Nat.eqb].
    rewrite utf8_lead_three by zdiv. cbn [fst snd app].
    rewrite utf8_run_cons, utf8_step_continuation.
    2: cbn [bytes_needed]; discriminate.
    2: zdiv.
    2:{ cbn [lower_boundary upper_boundary].
        apply andb_false_iff in Hsur.
        destruct (cp / 4096 =? 0) eqn:Q0, (cp / 4096 =? 13) eqn:Q13;
          try apply Z.eqb_eq in Q0; try apply Z.eqb_eq in Q13;
          destruct Hsur as [Hsur|Hsur];
          try apply Z.leb_gt in Hsur; zdiv. }
    cbn [bytes_seen bytes_needed code_point Nat.eqb fst snd app].
    rewrite utf8_run_cons, utf8_step_continuation
      by (cbn [bytes_needed lower_boundary upper_boundary]; zdiv).
    cbn [bytes_seen bytes_needed code_point Nat.eqb fst snd utf8_run app].
    f_equal. zdiv.
  - apply Z.ltb_ge in E3.
    rewrite utf8_run_cons. unfold utf8_step at 1 2.
    cbn [utf8_init bytes_needed Nat.eqb].
    rewrite utf8_lead_four by zdiv. cbn [fst snd app].
    rewrite utf8_run_cons, utf8_step_continuation.
    2: cbn [bytes_needed]; discriminate.
    2: zdiv.
    2:{ cbn [lower_boundary upper_boundary].
        destruct (cp / 262144 =? 0) eqn:Q0, (cp / 262144 =? 4) eqn:Q4;
          try apply Z.eqb_eq in Q0; try apply Z.eqb_eq in Q4; zdiv. }
    cbn [bytes_seen bytes_needed code_point Nat.eqb fst snd app].
    rewrite utf8_run_cons, utf8_step_continuation
      by (cbn [bytes_needed lower_boundary upper_boundary]; zdiv).
    cbn [bytes_seen bytes_needed code_point Nat.eqb fst snd app].
    rewrite utf8_run_cons, utf8_step_continuation
      by (cbn [bytes_needed lower_boundary upper_boundary]; zdiv).
    cbn [bytes_seen bytes_needed code_point Nat.eqb fst snd utf8_run app].
    f_equal. zdiv.
Qed.

(** ** Printable text and the legacy prefixes *)
Lemma no_prefix (b : Z) (rest : Uint8Array) :
  b <> Char.ESC -> b <> Char.CANCEL ->
  metaPrefix (b :: rest) = false /\ altPrefix (b :: rest) = false.
Proof.
  intros He Hc. unfold altPrefix, metaPrefix, idx. cbn [nth_error jeq].
  replace (b =? Char.CANCEL) with false by (symmetry; now apply Z.eqb_neq).
  replace (b =? Char.ESC) with false by (symmetry; now apply Z.eqb_neq).
  cbn [andb orb]. now rewrite andb_false_r.
Qed.

Lemma unprefixed_head (up low : jsstring -> jsstring) (b : Z)
      (rest : Uint8Array) :
  b <> Char.ESC -> b <> Char.CANCEL ->
  decodeXTermUtf8Key up low (b :: rest)
  = decodeCharByte up low (b :: rest) false false 0 b.
Proof.
  intros He Hc. destruct (no_prefix b rest He Hc) as [Hm Ha].
  rewrite decodeXTermUtf8Key_view. unfold startPosOf. rewrite Hm, Ha.
  reflexivity.
Qed.

Ltac enumerate b :=
  destruct b as [|?p|?p]; try lia;
  repeat match goal with q : positive |- _ => destruct q; try lia end.

Lemma printable_head (up low : jsstring -> jsstring) (b : Z)
      (rest : Uint8Array) :
  isPrintable b = true ->
  decodeXTermUtf8Key up low (b :: rest)
  = ReturnMaybeMultiple (printableKey b) 1.
Proof.
  unfold isPrintable, Char.SPACE, Char.tilde. intros Hb.
  apply andb_prop in Hb. destruct Hb as [H1 H2].
  apply Z.leb_le in H1, H2.
  rewrite unprefixed_head by (unfold Char.ESC, Char.CANCEL; lia).
  enumerate b; reflexivity.
Qed.

Lemma route_legacy (up low : jsstring -> jsstring) (b : Z)
      (rest : Uint8Array) :
  b <> Char.ESC ->
  route up low (b :: rest) = decodeXTermUtf8Key up low (b :: rest).
Proof.
  intros He. unfold route, idx. cbn [nth_error jeq].
  replace (b =? Char.ESC) with false by (symmetry; now apply Z.eqb_neq).
  now rewrite andb_false_r.
Qed.

(** X1.  A non-empty buffer of printable ASCII bytes (32..126) decodes to
    one event per byte, in order: the named key [space] for byte 32, the
    character itself for every other byte, with [shift] set exactly on
    the upper case letters and no other modifier. *)
Theorem printable_text (up low : jsstring -> jsstring) (B : Uint8Array) :
  B <> [] -> forallb isPrintable B = true ->
  decodeBuffer up low B = Some (Events (map printableKey B)).
Proof.
  induction B as [|b rest IH]; intros Hne Hall; [easy|].
  cbn [forallb] in Hall. apply andb_prop in Hall. destruct Hall as [Hb Hrest].
  assert (He : b <> Char.ESC).
  { unfold isPrintable, Char.SPACE, Char.tilde in Hb.
    apply andb_prop in Hb. destruct Hb as [H1 H2].
    apply Z.leb_le in H1, H2. unfold Char.ESC. lia. }
  rewrite decodeBuffer_unfold, route_legacy, printable_head by assumption.
  cbn [exec map]. unfold maybeMultiple, slice_from. cbn [skipn length].
  destruct rest as [|b' rest']; [reflexivity|].
  cbn [length Nat.eqb]. rewrite IH by (easy || assumption). reflexivity.
Qed.

Lemma printable_text_witness :
  [72; 105; 32; 33] <> []
  /\ forallb isPrintable [72; 105; 32; 33] = true
  /\ decode [72; 105; 32; 33]
     = Some (Events [keyEvent (str "H") true false false false;
                     plainKey (str "i"); plainKey (str "space");
                     plainKey (str "!")]).
Proof.
  assert (Hne : [72; 105; 32; 33] <> []) by discriminate.
  split; [exact Hne|]. split; [reflexivity|].
  exact (printable_text latin1_toUpperCase latin1_toLowerCase
                        [72; 105; 32; 33] Hne eq_refl).
Defined.

Lemma decodeCharByte_flags (up low : jsstring -> jsstring)
      (B B' : Uint8Array) (m a m' a' : bool) (sp sp' : nat) (cb : Z)
      (e : KeyEvent) (c : nat) :
  decodeCharByte up low B m a sp cb = ReturnMaybeMultiple e c ->
  decodeCharByte up low B' m' a' sp' cb
  = ReturnMaybeMultiple (mkKeyEvent (key e) (shift e) (ctrl e) a' m')
                        (sp' + 1).
Proof.
  unfold decodeCharByte. cbv zeta.
  follow_premise; intros Hr; try discriminate Hr; inversion Hr; subst;
    reflexivity.
Qed.

Lemma unprefixed_of_consumed_one (up low : jsstring -> jsstring) (b : Z)
      (rest : Uint8Array) (e : KeyEvent) :
  decodeXTermUtf8Key up low (b :: rest) = ReturnMaybeMultiple e 1 ->
  decodeCharByte up low (b :: rest) false false 0 b = ReturnMaybeMultiple e 1
  /\ alt e = false /\ meta e = false.
Proof.
  rewrite decodeXTermUtf8Key_view.
  destruct (idx (b :: rest) (startPosOf (b :: rest))) as [cb|] eqn:Hc;
    [|discriminate].
  intros Hr.
  pose proof (decodeCharByte_consumed up low _ (b :: rest) _ _ _ _ _ _ Hr)
    as [Hs _].
  assert (H0 : startPosOf (b :: rest) = 0%nat) by lia.
  unfold startPosOf in H0.
  destruct (altPrefix (b :: rest)) eqn:Ha, (metaPrefix (b :: rest)) eqn:Hm;
    try discriminate H0.
  unfold startPosOf in Hc, Hr. rewrite Ha, Hm in Hc, Hr.
  cbn [Nat.add] in Hc, Hr. unfold idx in Hc. cbn [nth_error] in Hc.
  injection Hc as <-.
  split; [exact Hr|].
  pose proof (decodeCharByte_flags up low _ (b :: rest) _ _ false false
                                   _ 0 _ _ _ Hr) as Hf.
  rewrite Hr in Hf. injection Hf as Hf. rewrite Hf. split; reflexivity.
Qed.

(** X2.  When the legacy decoder reads a buffer as an event that consumes
    its first byte only, it reads the same buffer behind one ESC as that
    event with [alt] set, consuming two bytes. *)
Theorem alt_prefix (up low : jsstring -> jsstring) (b : Z)
        (rest : Uint8Array) (e : KeyEvent) :
  decodeXTermUtf8Key up low (b :: rest) = ReturnMaybeMultiple e 1 ->
  decodeXTermUtf8Key up low (Char.ESC :: b :: rest)
  = ReturnMaybeMultiple (withAlt e) 2.
Proof.
  intros Hr. apply unprefixed_of_consumed_one in Hr.
  destruct Hr as (Hr & _ & Hm).
  rewrite decodeXTermUtf8Key_view.
  change (metaPrefix (Char.ESC :: b :: rest)) with false.
  change (altPrefix (Char.ESC :: b :: rest)) with true.
  change (startPosOf (Char.ESC :: b :: rest)) with 1%nat.
  change (idx (Char.ESC :: b :: rest) 1) with (Some b). cbv beta iota.
  rewrite (decodeCharByte_flags up low _ (Char.ESC :: b :: rest) _ _
             false true _ 1 _ _ _ Hr).
  unfold withAlt. now rewrite Hm.
Qed.

Lemma alt_prefix_witness :
  decodeXTermUtf8Key latin1_toUpperCase latin1_toLowerCase [97]
  = ReturnMaybeMultiple (plainKey (str "a")) 1
  /\ decodeXTermUtf8Key latin1_toUpperCase latin1_toLowerCase [27; 97]
     = ReturnMaybeMultiple (keyEvent (str "a") false false true false) 2.
Proof.
  assert (H : decodeXTermUtf8Key latin1_toUpperCase latin1_toLowerCase [97]
              = ReturnMaybeMultiple (plainKey (str "a")) 1) by reflexivity.
  split; [exact H|].
  exact (alt_prefix latin1_toUpperCase latin1_toLowerCase 97 [] _ H).
Defined.

(** X3.  When the legacy decoder reads a buffer as an event that consumes
    its first byte only, and that byte is not ESC, it reads the same
    buffer behind the prefix CAN "@" "s" as that event with [meta] set,
    consuming four bytes. *)
Theorem meta_prefix (up low : jsstring -> jsstring) (b : Z)
        (rest : Uint8Array) (e : KeyEvent) :
  decodeXTermUtf8Key up low (b :: rest) = ReturnMaybeMultiple e 1 ->
  b <> Char.ESC ->
  decodeXTermUtf8Key up low (Char.CANCEL :: Char.at_ :: Char.s :: b :: rest)
  = ReturnMaybeMultiple (withMeta e) 4.
Proof.
  intros Hr He. apply unprefixed_of_consumed_one in Hr.
  destruct Hr as (Hr & Ha & Hm).
  rewrite decodeXTermUtf8Key_view.
  change (metaPrefix (Char.CANCEL :: Char.at_ :: Char.s :: b :: rest))
    with true.
  assert (Halt : altPrefix (Char.CANCEL :: Char.at_ :: Char.s :: b :: rest)
                 = false).
  { unfold altPrefix.
    change (metaPrefix (Char.CANCEL :: Char.at_ :: Char.s :: b :: rest))
      with true.
    unfold idx. cbn [nth_error jeq andb].
    replace (b =? Char.ESC) with false by (symmetry; now apply Z.eqb_neq).
    now rewrite andb_false_r. }
  unfold startPosOf. rewrite Halt.
  change (metaPrefix (Char.CANCEL :: Char.at_ :: Char.s :: b :: rest))
    with true.
  cbn [Nat.add]. unfold idx at 1. cbn [nth_error].
  rewrite (decodeCharByte_flags up low _
             (Char.CANCEL :: Char.at_ :: Char.s :: b :: rest) _ _
             true false _ 3 _ _ _ Hr).
  unfold withMeta. now rewrite Ha.
Qed.

Lemma meta_prefix_witness :
  (decodeXTermUtf8Key latin1_toUpperCase latin1_toLowerCase [97]
   = ReturnMaybeMultiple (plainKey (str "a")) 1
   /\ 97 <> Char.ESC)
  /\ decodeXTermUtf8Key latin1_toUpperCase latin1_toLowerCase
                        [24; 64; 115; 97]
     = ReturnMaybeMultiple (keyEvent (str "a") false false false true) 4.
Proof.
  assert (H : decodeXTermUtf8Key latin1_toUpperCase latin1_toLowerCase [97]
              = ReturnMaybeMultiple (plainKey (str "a")) 1) by reflexivity.
  assert (He : 97 <> Char.ESC) by discriminate.
  split; [split; [exact H | exact He]|].
  exact (meta_prefix latin1_toUpperCase latin1_toLowerCase 97 [] _ H He).
Defined.

(** X4.  When the legacy decoder reads a buffer as an event that consumes
    its first byte only, it reads the same buffer behind CAN "@" "s" ESC
    as that event with both [meta] and [alt] set, consuming five bytes. *)
Theorem meta_alt_prefix (up low : jsstring -> jsstring) (b : Z)
        (rest : Uint8Array) (e : KeyEvent) :
  decodeXTermUtf8Key up low (b :: rest) = ReturnMaybeMultiple e 1 ->
  decodeXTermUtf8Key up low
    (Char.CANCEL :: Char.at_ :: Char.s :: Char.ESC :: b :: rest)
  = ReturnMaybeMultiple (withAlt (withMeta e)) 5.
Proof.
  intros Hr. apply unprefixed_of_consumed_one in Hr.
  destruct Hr as (Hr & Ha & Hm).
  rewrite decodeXTermUtf8Key_view.
  change (metaPrefix
            (Char.CANCEL :: Char.at_ :: Char.s :: Char.ESC :: b :: rest))
    with true.
  change (altPrefix
            (Char.CANCEL :: Char.at_ :: Char.s :: Char.ESC :: b :: rest))
    with true.
  change (startPosOf
            (Char.CANCEL :: Char.at_ :: Char.s :: Char.ESC :: b :: rest))
    with 4%nat.
  unfold idx at 1. cbn [nth_error].
  rewrite (decodeCharByte_flags up low _
             (Char.CANCEL :: Char.at_ :: Char.s :: Char.ESC :: b :: rest)
             _ _ true true _ 4 _ _ _ Hr).
  reflexivity.
Qed.

Lemma meta_alt_prefix_witness :
  decodeXTermUtf8Key latin1_toUpperCase latin1_toLowerCase [27]
  = ReturnMaybeMultiple (plainKey (str "escape")) 1
  /\ decodeXTermUtf8Key latin1_toUpperCase latin1_toLowerCase
                        [24; 64; 115; 27; 27]
     = ReturnMaybeMultiple (keyEvent (str "escape") false false true true) 5.
Proof.
  assert (H : decodeXTermUtf8Key latin1_toUpperCase latin1_toLowerCase [27]
              = ReturnMaybeMultiple (plainKey (str "escape")) 1)
    by reflexivity.
  split; [exact H|].
  exact (meta_alt_prefix latin1_toUpperCase latin1_toLowerCase 27 [] _ H).
Defined.

(** ** UTF-8 characters *)

Lemma textDecoder_decode_encode (cp : Z) :
  isScalar cp = true ->
  textDecoder_decode (utf8_encode cp) = if cp =? 0xFEFF then [] else [cp].
Proof.
  intros Hs. unfold textDecoder_decode. now rewrite utf8_run_encode.
Qed.

Lemma codePointsOf_two (x : Z) :
  0 <= x < 32 -> codePointsOf (192 + x) = 2%nat.
Proof. intros Hx. enumerate x; reflexivity. Qed.
Lemma codePointsOf_three (x : Z) :
  0 <= x < 16 -> codePointsOf (224 + x) = 3%nat.
Proof. intros Hx. enumerate x; reflexivity. Qed.
Lemma codePointsOf_four (x : Z) :
  0 <= x < 16 -> codePointsOf (240 + x) = 4%nat.
Proof. intros Hx. enumerate x; reflexivity. Qed.

(** The first byte of an encoded character announces its length. *)
Lemma utf8_encode_lead (cp : Z) :
  isScalar cp = true -> 0x80 <= cp ->
  exists lead rest,
    utf8_encode cp = lead :: rest /\ 128 <= lead <= 255
    /\ codePointsOf lead = length (utf8_encode cp).
Proof.
  unfold isScalar. intros Hs Hc.
  apply andb_prop in Hs. destruct Hs as [Hs _].
  apply andb_prop in Hs. destruct Hs as [H0 Hmax].
  apply Z.leb_le in H0, Hmax.
  rewrite utf8_encode_bytes by lia.
  replace (cp <? 0x80) with false by (symmetry; apply Z.ltb_ge; lia).
  destruct (cp <? 0x800) eqn:E2; [|destruct (cp <? 0x10000) eqn:E3];
    try apply Z.ltb_lt in E2; try apply Z.ltb_ge in E2;
    try apply Z.ltb_lt in E3; try apply Z.ltb_ge in E3;
    do 2 eexists; (split; [reflexivity|]); (split; [zdiv|]); cbn [length].
  - apply codePointsOf_two. zdiv.
  - apply codePointsOf_three. zdiv.
  - apply codePointsOf_four. zdiv.
Qed.

(** X5.  The UTF-8 encoding of a scalar value from U+0080 on is decoded
    to the key made of that one character, or to the empty key for
    U+FEFF, which the text decoder drops as a byte order mark.  Alone in
    the buffer it is the whole result; with any byte after it, the rest of
    the buffer is decoded from the length of the encoding on and pushed
    behind the event. *)
Theorem utf8_character (up low : jsstring -> jsstring) (cp : Z) :
  isScalar cp = true -> 0x80 <= cp ->
  let character := if cp =? 0xFEFF then [] else [cp] in
  let e := keyEvent character (shiftOf up low character) false false false in
  decodeXTermUtf8Key up low (utf8_encode cp) = ReturnEvent e
  /\ forall b rest,
      decodeXTermUtf8Key up low (utf8_encode cp ++ b :: rest)
      = ReturnPushed e (length (utf8_encode cp)).
Proof.
  intros Hs Hc character e.
  destruct (utf8_encode_lead cp Hs Hc) as (lead & tl & Henc & Hlead & HL).
  pose proof (textDecoder_decode_encode cp Hs) as Hd. fold character in Hd.
  assert (H0 : forall tl', idx (utf8_encode cp ++ tl') 0 = Some lead)
    by (intros tl'; now rewrite Henc).
  split.
  - pose proof (utf8_unprefixed up low (utf8_encode cp ++ []) lead
                  (H0 []) Hlead) as Hu.
    cbv zeta in Hu. rewrite app_nil_r in Hu. rewrite Hu.
    rewrite HL, Nat.ltb_irrefl. unfold slice. cbn [skipn].
    now rewrite Nat.sub_0_r, firstn_all, Hd.
  - intros b rest.
    pose proof (utf8_unprefixed up low (utf8_encode cp ++ b :: rest) lead
                  (H0 _) Hlead) as Hu.
    cbv zeta in Hu. rewrite Hu.
    rewrite HL, length_app. cbn [length].
    replace (length (utf8_encode cp) + S (length rest)
             <? length (utf8_encode cp))%nat
      with false by (symmetry; apply Nat.ltb_ge; lia).
    replace (length (utf8_encode cp)
             <? length (utf8_encode cp) + S (length rest))%nat
      with true by (symmetry; apply Nat.ltb_lt; lia).
    unfold slice. cbn [skipn]. rewrite Nat.sub_0_r.
    rewrite firstn_app, Nat.sub_diag, firstn_all. cbn [firstn].
    now rewrite app_nil_r, Hd.
Qed.

Lemma utf8_character_witness :
  (isScalar 233 = true /\ 0x80 <= 233)
  /\ decodeXTermUtf8Key latin1_toUpperCase latin1_toLowerCase [195; 169]
     = ReturnEvent (plainKey [233])
  /\ forall b rest,
      decodeXTermUtf8Key latin1_toUpperCase latin1_toLowerCase
                         ([195; 169] ++ b :: rest)
      = ReturnPushed (plainKey [233]) 2.
Proof.
  assert (Hs : isScalar 233 = true) by reflexivity.
  assert (Hc : 0x80 <= 233) by lia.
  split; [split; [exact Hs | exact Hc]|].
  exact (utf8_character latin1_toUpperCase latin1_toLowerCase 233 Hs Hc).
Defined.

(** X6.  A buffer that holds the encoding of a scalar value from U+0080
    on cut short, at least one byte of it but not all, decodes to null. *)
Theorem utf8_character_cut (up low : jsstring -> jsstring) (cp : Z)
        (n : nat) :
  isScalar cp = true -> 0x80 <= cp ->
  (0 < n < length (utf8_encode cp))%nat ->
  decodeXTermUtf8Key up low (firstn n (utf8_encode cp)) = ReturnNull.
Proof.
  intros Hs Hc Hn.
  destruct (utf8_encode_lead cp Hs Hc) as (lead & tl & Henc & Hlead & HL).
  assert (H0 : idx (firstn n (utf8_encode cp)) 0 = Some lead).
  { rewrite idx_firstn, Henc.
    replace (0 <? n)%nat with true by (symmetry; apply Nat.ltb_lt; lia).
    reflexivity. }
  pose proof (utf8_unprefixed up low _ lead H0 Hlead) as Hu.
  cbv zeta in Hu. rewrite Hu, HL, length_firstn.
  replace (Nat.min n (length (utf8_encode cp)) <? length (utf8_encode cp))%nat
    with true by (symmetry; apply Nat.ltb_lt; lia).
  reflexivity.
Qed.

Lemma utf8_character_cut_witness :
  (isScalar 0x20AC = true /\ 0x80 <= 0x20AC
   /\ (0 < 2 < length (utf8_encode 0x20AC))%nat)
  /\ decodeXTermUtf8Key latin1_toUpperCase latin1_toLowerCase [226; 130]
     = ReturnNull.
Proof.
  assert (Hs : isScalar 0x20AC = true) by reflexivity.
  assert (Hc : 0x80 <= 0x20AC) by lia.
  assert (Hn : (0 < 2 < length (utf8_encode 0x20AC))%nat)
    by (cbn; lia).
  split; [split; [exact Hs | split; [exact Hc | exact Hn]]|].
  exact (utf8_character_cut latin1_toUpperCase latin1_toLowerCase 0x20AC 2
                            Hs Hc Hn).
Defined.

(** X7.  Bytes 28..31 are in none of the ASCII cases: they go through the
    text decoder, and the key is the control character itself.  Alone it
    is the whole result; with bytes after it, the rest is decoded from
    index 1 on and pushed behind the event. *)
Theorem separator_bytes (up low : jsstring -> jsstring) (b : Z) :
  28 <= b <= 31 ->
  decodeXTermUtf8Key up low [b]
  = ReturnEvent (keyEvent [b] (shiftOf up low [b]) false false false)
  /\ forall t rest,
      decodeXTermUtf8Key up low (b :: t :: rest)
      = ReturnPushed (keyEvent [b] (shiftOf up low [b]) false false false) 1.
Proof.
  intros Hb. split; [|intros t rest];
    rewrite unprefixed_head by (unfold Char.ESC, Char.CANCEL; lia);
    enumerate b; reflexivity.
Qed.

Lemma separator_bytes_witness :
  28 <= 28 <= 31
  /\ decodeXTermUtf8Key latin1_toUpperCase latin1_toLowerCase [28]
     = ReturnEvent (plainKey [28])
  /\ forall t rest,
      decodeXTermUtf8Key latin1_toUpperCase latin1_toLowerCase
                         (28 :: t :: rest)
      = ReturnPushed (plainKey [28]) 1.
Proof.
  assert (H : 28 <= 28 <= 31) by lia.
  split; [exact H|].
  exact (separator_bytes latin1_toUpperCase latin1_toLowerCase 28 H).
Defined.

(** X8.  A lone byte in 0x80..0xBF, a continuation byte with no lead byte
    before it, decodes to the key U+FFFD. *)
Theorem stray_continuation_byte (up low : jsstring -> jsstring) (b : Z) :
  0x80 <= b <= 0xBF ->
  decodeXTermUtf8Key up low [b]
  = ReturnEvent (keyEvent [REPLACEMENT] (shiftOf up low [REPLACEMENT])
                          false false false).
Proof.
  intros Hb.
  rewrite unprefixed_head by (unfold Char.ESC, Char.CANCEL; lia).
  enumerate b; reflexivity.
Qed.

Lemma stray_continuation_byte_witness :
  0x80 <= 0xA9 <= 0xBF
  /\ decodeXTermUtf8Key latin1_toUpperCase latin1_toLowerCase [0xA9]
     = ReturnEvent (plainKey [REPLACEMENT]).
Proof.
  assert (H : 0x80 <= 0xA9 <= 0xBF) by lia.
  split; [exact H|].
  exact (stray_continuation_byte latin1_toUpperCase latin1_toLowerCase
                                 0xA9 H).
Defined.

(** A boolean fact about bytes, as a proposition. *)
Ltac to_prop H :=
  repeat first
    [ rewrite orb_false_iff in H | rewrite andb_false_iff in H
    | rewrite orb_true_iff in H | rewrite andb_true_iff in H
    | rewrite negb_true_iff in H | rewrite negb_false_iff in H
    | rewrite Z.eqb_eq in H | rewrite Z.eqb_neq in H
    | rewrite Z.leb_le in H | rewrite Z.leb_gt in H
    | rewrite Z.ltb_lt in H | rewrite Z.ltb_ge in H ].

(** ** When the legacy decoder answers null *)
(** X9.  The legacy decoder returns null in two cases only: there is no
    byte at the position behind the prefixes, or the byte there is in none
    of the ASCII cases and the buffer is shorter than the number of bytes
    that byte announces. *)
Theorem legacy_null_iff (up low : jsstring -> jsstring) (B : Uint8Array) :
  decodeXTermUtf8Key up low B = ReturnNull
  <-> match idx B (startPosOf B) with
      | None => True
      | Some charByte =>
        isLegacyByte charByte = false
        /\ (length B < codePointsOf charByte)%nat
      end.
Proof.
  rewrite decodeXTermUtf8Key_view.
  destruct (idx B (startPosOf B)) as [c|]; [|tauto].
  unfold decodeCharByte, switchKey. cbv zeta. split.
  - follow_premise; intros Hr; try discriminate Hr; clear Hr;
      (split; [|now apply Nat.ltb_lt]);
      destruct (isLegacyByte c) eqn:El; try reflexivity; exfalso;
      unfold isLegacyByte in El; to_prop El; bool2prop; char_values; lia.
  - intros [El Hlen]. unfold isLegacyByte in El. to_prop El.
    apply Nat.ltb_lt in Hlen. rewrite Hlen.
    follow_goal; first [reflexivity | exfalso; bool2prop; char_values; lia].
Qed.

Lemma utf8_pushed_byte (up low : jsstring -> jsstring) (B : Uint8Array)
      (e : KeyEvent) (n : nat) :
  decodeXTermUtf8Key up low B = ReturnPushed e n ->
  exists c, In c B /\ isLegacyByte c = false.
Proof.
  rewrite decodeXTermUtf8Key_view.
  destruct (idx B (startPosOf B)) as [c|] eqn:Hc; [|discriminate].
  apply nth_error_In in Hc. intros Hr. exists c. split; [exact Hc|].
  revert Hr. unfold decodeCharByte, switchKey. cbv zeta.
  follow_premise; intros Hr; try discriminate Hr; clear Hr;
    destruct (isLegacyByte c) eqn:El; try reflexivity; exfalso;
    unfold isLegacyByte in El; to_prop El; bool2prop; char_values; lia.
Qed.

Lemma route_pushed_byte (up low : jsstring -> jsstring) (B : Uint8Array)
      (e : KeyEvent) (n : nat) :
  route up low B = ReturnPushed e n ->
  exists c, In c B /\ isLegacyByte c = false.
Proof.
  unfold route.
  destruct (_ && _ && _).
  - intros H. now apply csi_never_pushes in H.
  - destruct (_ && _).
    + intros H. now apply ss3_never_pushes in H.
    + apply utf8_pushed_byte.
Qed.

Lemma forallb_skipn {A : Type} (f : A -> bool) (n : nat) (l : list A) :
  forallb f l = true -> forallb f (skipn n l) = true.
Proof.
  revert l. induction n as [|n IH]; intros [|a l] H; try exact H.
  cbn [forallb] in H. apply andb_prop in H. apply IH, H.
Qed.

(** X10.  On a buffer whose bytes are all in 0..27 or 32..127,
    [decodeBuffer] raises no TypeError. *)
Theorem ascii_never_raises (up low : jsstring -> jsstring)
        (B : Uint8Array) :
  forallb isLegacyByte B = true -> decodeBuffer up low B <> Some Throws.
Proof.
  remember (length B) as n eqn:Hn.
  revert B Hn. induction n as [n IH] using (well_founded_induction lt_wf).
  intros B Hn Hall. rewrite decodeBuffer_unfold.
  destruct (route up low B) as [|e c|e c|e] eqn:Hr; cbn [exec];
    try discriminate.
  - pose proof (route_consumed _ _ _ _ _ Hr) as Hc.
    unfold maybeMultiple.
    destruct (c =? length B)%nat; [discriminate|].
    assert (Ht : decodeBuffer up low (slice_from B c) <> Some Throws).
    { apply (IH (length (slice_from B c))).
      - rewrite length_slice_from. lia.
      - reflexivity.
      - now apply forallb_skipn. }
    destruct (decodeBuffer up low (slice_from B c)) as [[| |es]|];
      try discriminate. now destruct Ht.
  - apply route_pushed_byte in Hr. destruct Hr as (c' & Hin & Hl).
    rewrite forallb_forall in Hall. rewrite (Hall _ Hin) in Hl.
    discriminate Hl.
Qed.

Lemma ascii_never_raises_witness :
  forallb isLegacyByte [97; 27; 91] = true
  /\ decode [97; 27; 91] <> Some Throws.
Proof.
  split; [reflexivity|].
  exact (ascii_never_raises latin1_toUpperCase latin1_toLowerCase
                            [97; 27; 91] eq_refl).
Defined.

Lemma route_event_nonempty (up low : jsstring -> jsstring) (B : Uint8Array)
      (e : KeyEvent) :
  route up low B = ReturnEvent e -> (1 <= length B)%nat.
Proof.
  unfold route.
  destruct (_ && _ && _).
  - unfold decodeXTermCSIFunctionKeys. cbv zeta.
    intros H; split_tests; discriminate.
  - destruct (_ && _).
    + unfold decodeXTermSS3FunctionKeys. intros H; split_tests; discriminate.
    + rewrite decodeXTermUtf8Key_view.
      destruct (idx B (startPosOf B)) as [c|] eqn:Hc; [|discriminate].
      apply idx_Some_lt in Hc. lia.
Qed.

(** X11.  When [decodeBuffer] returns events, there is at least one and
    at most as many as the buffer has bytes. *)
Theorem event_count (up low : jsstring -> jsstring) (B : Uint8Array)
        (es : list KeyEvent) :
  decodeBuffer up low B = Some (Events es) ->
  (1 <= length es <= length B)%nat.
Proof.
  remember (length B) as n eqn:Hn.
  revert B es Hn. induction n as [n IH] using (well_founded_induction lt_wf).
  intros B es Hn. rewrite decodeBuffer_unfold.
  destruct (route up low B) as [|e c|e c|e] eqn:Hr; cbn [exec];
    try discriminate.
  - pose proof (route_consumed _ _ _ _ _ Hr) as Hc.
    unfold maybeMultiple.
    destruct (c =? length B)%nat.
    + intros H. injection H as <-. cbn [length]. lia.
    + destruct (decodeBuffer up low (slice_from B c)) as [[| |et]|] eqn:Ht;
        try discriminate; intros H; injection H as <-; cbn [length];
        [lia|].
      apply (IH (length (slice_from B c))) in Ht;
        [|rewrite length_slice_from; lia|reflexivity].
      rewrite length_slice_from in Ht. lia.
  - pose proof (route_pushed _ _ _ _ _ Hr) as Hc.
    unfold pushTail.
    destruct (decodeBuffer up low (slice_from B c)) as [[| |et]|] eqn:Ht;
      try discriminate; intros H; injection H as <-; cbn [length].
    apply (IH (length (slice_from B c))) in Ht;
      [|rewrite length_slice_from; lia|reflexivity].
    rewrite length_slice_from in Ht. lia.
  - apply route_event_nonempty in Hr.
    intros H. injection H as <-. cbn [length]. lia.
Qed.

Lemma event_count_witness :
  decode [27; 91; 65; 97]
  = Some (Events [plainKey (str "up"); plainKey (str "a")])
  /\ (1 <= length [plainKey (str "up"); plainKey (str "a")]
      <= length [27; 91; 65; 97])%nat.
Proof.
  assert (H : decode [27; 91; 65; 97]
              = Some (Events [plainKey (str "up"); plainKey (str "a")]))
    by reflexivity.
  split; [exact H|].
  exact (event_count latin1_toUpperCase latin1_toLowerCase [27; 91; 65; 97]
                     [plainKey (str "up"); plainKey (str "a")] H).
Defined.

(** ** Modifier digits *)

(** X12.  Among the modifier digits "1".."9", two digits resolve to the
    same event exactly when they are equal or are "1" and "9": both of
    these set [meta] and nothing else. *)
Theorem modifier_digits_collide (k : jsstring) (d d' : Z) :
  Char.n1 <= d <= Char.n9 -> Char.n1 <= d' <= Char.n9 ->
  (modifierKeypress k (Some d) = modifierKeypress k (Some d')
   <-> d = d' \/ (d = Char.n1 /\ d' = Char.n9)
       \/ (d = Char.n9 /\ d' = Char.n1)).
Proof.
  unfold Char.n1, Char.n9. intros Hd Hd'.
  enumerate d; enumerate d';
    (split;
     [ intros H;
       first [ left; reflexivity
             | right; left; split; reflexivity
             | right; right; split; reflexivity
             | discriminate H ]
     | first [ intros _; reflexivity
             | intros [H|[[H1 H2]|[H1 H2]]]; discriminate ] ]).
Qed.

Lemma modifier_digits_collide_witness :
  (Char.n1 <= 49 <= Char.n9 /\ Char.n1 <= 57 <= Char.n9)
  /\ (modifierKeypress (str "up") (Some 49)
      = modifierKeypress (str "up") (Some 57)
      <-> 49 = 57 \/ (49 = Char.n1 /\ 57 = Char.n9)
          \/ (49 = Char.n9 /\ 57 = Char.n1)).
Proof.
  assert (H1 : Char.n1 <= 49 <= Char.n9) by (unfold Char.n1, Char.n9; lia).
  assert (H2 : Char.n1 <= 57 <= Char.n9) by (unfold Char.n1, Char.n9; lia).
  split; [split; assumption|].
  exact (modifier_digits_collide (str "up") 49 57 H1 H2).
Defined.

(** ** The stand-alone decoder *)

(** X14.  On a single byte in 0..126 other than 28..31, the stand-alone
    decoder of [src/decode.ts] returns the one event that [decodeBuffer]
    returns. *)
Theorem standalone_agrees_on_ascii (up low : jsstring -> jsstring) (b : Z) :
  0 <= b <= 126 -> ~ 28 <= b <= 31 ->
  decodeBuffer up low [b] = Some (Events [Standalone.decodeBuffer [b]]).
Proof.
  intros Hb Hs. enumerate b; reflexivity.
Qed.

Lemma standalone_agrees_on_ascii_witness :
  (0 <= 65 <= 126 /\ ~ 28 <= 65 <= 31)
  /\ decode [65] = Some (Events [Standalone.decodeBuffer [65]]).
Proof.
  assert (H1 : 0 <= 65 <= 126) by lia.
  assert (H2 : ~ 28 <= 65 <= 31) by lia.
  split; [split; assumption|].
  exact (standalone_agrees_on_ascii latin1_toUpperCase latin1_toLowerCase
                                    65 H1 H2).
Defined.

(** X15.  The stand-alone decoder answers the key [unknown <end>] on the
    empty buffer and on every buffer whose first byte is 127 or more:
    DEL, which the xterm decoder reads as [backspace], and all of UTF-8. *)
Theorem standalone_unknown_end (buffer : Uint8Array) :
  (forall b, idx buffer 0 = Some b -> Char.DEL <= b) ->
  Standalone.decodeBuffer buffer
  = Standalone.keyPress (str "unknown <end>") false false false false.
Proof.
  intros H. unfold Standalone.decodeBuffer, Standalone.decodeAscii.
  destruct (idx buffer 0) as [b|].
  - specialize (H b eq_refl). cbn [jeq jlt].
    replace (b =? Char.ESC) with false
      by (symmetry; apply Z.eqb_neq; unfold Char.ESC, Char.DEL in *; lia).
    replace (b <? Char.DEL) with false by (symmetry; apply Z.ltb_ge; lia).
    now rewrite andb_false_r.
  - cbn [jeq jlt]. now rewrite andb_false_r.
Qed.

Lemma standalone_unknown_end_witness :
  (forall b, idx [127] 0 = Some b -> Char.DEL <= b)
  /\ Standalone.decodeBuffer [127]
     = Standalone.keyPress (str "unknown <end>") false false false false
  /\ decode [127] = Some (Events [plainKey (str "backspace")]).
Proof.
  assert (H : forall b, idx [127] 0 = Some b -> Char.DEL <= b).
  { intros b Hb. injection Hb as <-. unfold Char.DEL. lia. }
  split; [exact H|]. split; [|reflexivity].
  exact (standalone_unknown_end [127] H).
Defined.

(** X16.  On a complete sequence without modifiers (ESC "[" arrow,
    ESC "O" key, ESC "[" digit "~" for insert, delete, pageup and
    pagedown, ESC "[" digit digit "~" for F5 and up) the stand-alone
    decoder returns the one event that [decodeBuffer] returns. *)
Theorem standalone_agrees_on_plain_sequences (up low : jsstring -> jsstring)
        (buffer : Uint8Array) :
  plainSequence buffer = true ->
  decodeBuffer up low buffer
  = Some (Events [Standalone.decodeBuffer buffer]).
Proof.
  destruct buffer as [|e [|l [|x [|d [|t [|? ?]]]]]]; try discriminate;
    cbn [plainSequence]; intros H; to_prop H.
  - (* three bytes *)
    destruct H as [-> [[-> Ht]|[-> Ht]]].
    + unfold isArrowTerminator in Ht. cbn [existsb] in Ht. to_prop Ht.
      destruct Ht as [->|[->|[->|[->|[->|[->|Hf]]]]]];
        try discriminate Hf; reflexivity.
    + destruct Ht as [->|[H1 H2]]; [reflexivity|].
      unfold Char.O in H1. enumerate x; reflexivity.
  - (* four bytes *)
    destruct H as [[[-> ->] ->] Hk].
    unfold editKey, jeq in Hk.
    repeat match type of Hk with
           | context [?a =? ?b] =>
             let E := fresh in destruct (a =? b) eqn:E;
             [apply Z.eqb_eq in E; subst; reflexivity|]
           end.
    discriminate Hk.
  - (* five bytes *)
    destruct H as [[[[[[-> ->] ->] Hx] H0] H255] Hd].
    unfold Char.tilde in Hd.
    destruct Hx as [->| ->]; enumerate d; reflexivity.
Qed.

Lemma standalone_agrees_on_plain_sequences_witness :
  plainSequence [27; 91; 49; 55; 126] = true
  /\ decode [27; 91; 49; 55; 126]
     = Some (Events [Standalone.decodeBuffer [27; 91; 49; 55; 126]]).
Proof.
  split; [reflexivity|].
  exact (standalone_agrees_on_plain_sequences
           latin1_toUpperCase latin1_toLowerCase [27; 91; 49; 55; 126]
           eq_refl).
Defined.

Lemma standalone_modifierKeypress_digits_witness :
  Char.n1 <= 53 <= Char.n8
  /\ Standalone.modifierKeypress (str "up") (Some 53)
     = modifierKeypress (str "up") (Some 53).
Proof.
  assert (H : Char.n1 <= 53 <= Char.n8) by (unfold Char.n1, Char.n8; lia).
  split; [exact H|].
  exact (standalone_modifierKeypress_digits (str "up") 53 H).
Defined.

Lemma readLoop_stops (pre post : list Uint8Array) (stop : Uint8Array) :
  forallb keepsReading pre = true -> keepsReading stop = false ->
  readLoop (pre ++ stop :: post) = readLoop pre
  /\ yielded (readLoop pre) = map Standalone.decodeBuffer pre.
Proof.
  intros Hpre Hstop. unfold keepsReading in Hstop.
  apply negb_false_iff in Hstop.
  induction pre as [|chunk pre IH]; cbn [app readLoop].
  - rewrite Hstop. split; reflexivity.
  - cbn [forallb] in Hpre. apply andb_prop in Hpre.
    destruct Hpre as [Hc Hpre]. unfold keepsReading in Hc.
    apply negb_true_iff in Hc. rewrite Hc.
    destruct (IH Hpre) as [-> Hy]. split; [reflexivity|].
    cbn [yielded flat_map app map]. f_equal. exact Hy.
Qed.

(** X18.  The read loop ends at the first chunk that starts with byte 3:
    the chunks after it change nothing, and the keys yielded are those of
    the stand-alone decoder on the chunks before it, one per chunk and in
    order. *)
Theorem decodeStdout_stops_at_ctrl_c (pre post : list Uint8Array)
        (stop : Uint8Array) :
  forallb keepsReading pre = true -> keepsReading stop = false ->
  decodeStdout (pre ++ stop :: post) = decodeStdout pre
  /\ yielded (decodeStdout (pre ++ stop :: post))
     = map Standalone.decodeBuffer pre.
Proof.
  intros Hpre Hstop. unfold decodeStdout.
  destruct (readLoop_stops pre post stop Hpre Hstop) as [-> Hy].
  split; [reflexivity|]. exact Hy.
Qed.

Lemma decodeStdout_stops_at_ctrl_c_witness :
  (forallb keepsReading [[97]; [27; 91; 65]] = true
   /\ keepsReading [3] = false)
  /\ decodeStdout ([[97]; [27; 91; 65]] ++ [3] :: [[98]])
     = decodeStdout [[97]; [27; 91; 65]]
  /\ yielded (decodeStdout ([[97]; [27; 91; 65]] ++ [3] :: [[98]]))
     = [plainKey (str "a"); plainKey (str "up")].
Proof.
  split; [split; reflexivity|].
  exact (decodeStdout_stops_at_ctrl_c [[97]; [27; 91; 65]] [[98]] [3]
                                      eq_refl eq_refl).
Defined.

(** ** Key names *)

(** X19.  Every event that the legacy decoder hands to [maybeMultiple],
    and every event of the CSI decoder outside the two-digit F5..F12
    forms (consumed lengths 5 and 7), has a key that is a single
    character or one of the named keys. *)
Theorem vocabulary_kept (up low : jsstring -> jsstring) (B : Uint8Array)
        (e : KeyEvent) (c : nat) :
  decodeXTermUtf8Key up low B = ReturnMaybeMultiple e c
  \/ (decodeXTermCSIFunctionKeys B = ReturnMaybeMultiple e c
      /\ c <> 5%nat /\ c <> 7%nat) ->
  inVocabulary (key e) = true.
Proof.
  intros [H|(H & H5 & H7)]; revert H.
  - rewrite decodeXTermUtf8Key_view.
    destruct (idx B (startPosOf B)) as [cb|]; [|discriminate].
    unfold decodeCharByte, switchKey. cbv zeta.
    follow_premise; intros Hr; try discriminate Hr; inversion Hr; subst;
      reflexivity.
  - unfold_csi. rewrite !idx_if.
    generalize (idx B 2), (idx B 3), (idx B 4), (idx B 5), (idx B 6).
    intros v2 v3 v4 v5 v6.
    follow_premise; intros Hr; try discriminate Hr; inversion Hr; subst;
      try congruence; try reflexivity;
      bool2prop; char_values;
      match goal with
      | H1 : 0 < ?t, H2 : ?t < 5 |- _ =>
        assert (Ht : t = 1 \/ t = 2 \/ t = 3 \/ t = 4) by lia;
        destruct Ht as [Ht|[Ht|[Ht|Ht]]]; rewrite Ht; reflexivity
      end.
Qed.

Lemma vocabulary_kept_witness :
  (decodeXTermUtf8Key latin1_toUpperCase latin1_toLowerCase [10]
   = ReturnMaybeMultiple (keyEvent (str "j") false true false false) 1
   \/ (decodeXTermCSIFunctionKeys [10]
       = ReturnMaybeMultiple (keyEvent (str "j") false true false false) 1
       /\ 1%nat <> 5%nat /\ 1%nat <> 7%nat))
  /\ inVocabulary (str "j") = true.
Proof.
  assert (H : decodeXTermUtf8Key latin1_toUpperCase latin1_toLowerCase [10]
              = ReturnMaybeMultiple
                  (keyEvent (str "j") false true false false) 1)
    by reflexivity.
  split; [left; exact H|].
  exact (vocabulary_kept latin1_toUpperCase latin1_toLowerCase [10] _ 1
                         (or_introl H)).
Defined.

(** X20.  For a third byte [b] above "O", the SS3 decoder names the key
    f(b - 79) and consumes three bytes; that name is one of f1..f12
    exactly when [b] is at most "O" + 12. *)
Theorem ss3_key_in_vocabulary_iff (buffer : Uint8Array) (b : Z) :
  idx buffer 2 = Some b -> Char.O < b <= 255 ->
  decodeXTermSS3FunctionKeys buffer
  = ReturnMaybeMultiple (plainKey (fname (Some (b - Char.O)))) 3
  /\ (inVocabulary (fname (Some (b - Char.O))) = true <-> b <= Char.O + 12).
Proof.
  intros H2 Hb. unfold decodeXTermSS3FunctionKeys. rewrite H2.
  unfold Char.O in *. cbn [jeq jgt jsub option_map].
  replace (79 <? b) with true by (symmetry; apply Z.ltb_lt; lia).
  enumerate b; (split; [reflexivity|]);
    (split; [intros H; first [lia | discriminate H]
            | intros H; first [reflexivity | lia]]).
Qed.

Lemma ss3_key_in_vocabulary_iff_witness :
  (idx [27; 79; 81] 2 = Some 81 /\ Char.O < 81 <= 255)
  /\ decodeXTermSS3FunctionKeys [27; 79; 81]
     = ReturnMaybeMultiple (plainKey (str "f2")) 3
  /\ (inVocabulary (str "f2") = true <-> 81 <= Char.O + 12).
Proof.
  assert (H2 : idx [27; 79; 81] 2 = Some 81) by reflexivity.
  assert (Hb : Char.O < 81 <= 255) by (unfold Char.O; lia).
  split; [split; assumption|].
  exact (ss3_key_in_vocabulary_iff [27; 79; 81] 81 H2 Hb).
Defined.

(** ** More CSI keys *)

(** X21.  A CSI buffer of fewer than five bytes whose third byte, if any,
    is not a key by itself ("Z", "A".."H", "P".."S") and whose fourth
    byte is not "~" decodes to null. *)
Theorem csi_short_incomplete (buffer : Uint8Array) :
  (length buffer < 5)%nat ->
  (forall x, idx buffer 2 = Some x -> csiLetter x = false) ->
  idx buffer 3 <> Some Char.tilde ->
  decodeXTermCSIFunctionKeys buffer = ReturnNull.
Proof.
  intros Hlen Hx Ht.
  assert (H5 : idx buffer 5 = None) by (apply nth_error_None; lia).
  assert (Hl : (length buffer <? 5)%nat = true) by now apply Nat.ltb_lt.
  unfold_csi. rewrite !idx_if, H5, Hl.
  destruct (idx buffer 2) as [x|]; [specialize (Hx x eq_refl)|clear Hx];
    destruct (idx buffer 3) as [y|];
    try (unfold csiLetter in Hx; to_prop Hx);
    reduce; follow_goal;
    first [reflexivity | exfalso; bool2prop; char_values;
                         first [congruence | lia]].
Qed.

Lemma csi_short_incomplete_witness :
  ((length [27; 91; 49; 59] < 5)%nat
   /\ (forall x, idx [27; 91; 49; 59] 2 = Some x -> csiLetter x = false)
   /\ idx [27; 91; 49; 59] 3 <> Some Char.tilde)
  /\ decodeXTermCSIFunctionKeys [27; 91; 49; 59] = ReturnNull.
Proof.
  assert (H1 : (length [27; 91; 49; 59] < 5)%nat) by (cbn; lia).
  assert (H2 : forall x, idx [27; 91; 49; 59] 2 = Some x ->
                         csiLetter x = false)
    by (intros x Hx; injection Hx as <-; reflexivity).
  assert (H3 : idx [27; 91; 49; 59] 3 <> Some Char.tilde) by discriminate.
  split; [split; [exact H1 | split; [exact H2 | exact H3]]|].
  exact (csi_short_incomplete [27; 91; 49; 59] H1 H2 H3).
Defined.

(** X22.  A CSI buffer whose third byte is "Z" or in "A".."H", with no
    ";" at index 3, is the arrow, home or end key of that byte without
    modifiers, or Shift+Tab for "Z", consuming three bytes; the bytes "E"
    and "G" of that range stand for no key and give null. *)
Theorem csi_plain_arrow (buffer : Uint8Array) (t : Z) :
  idx buffer 2 = Some t -> Char.A <= t <= Char.H \/ t = Char.Z_ ->
  jne (idx buffer 3) Char.semicolon = true ->
  decodeXTermCSIFunctionKeys buffer
  = if isArrowTerminator t
    then ReturnMaybeMultiple (plainKey (arrowName t)) 3
    else if t =? Char.Z_
    then ReturnMaybeMultiple (keyEvent (str "tab") true false false false) 3
    else ReturnNull.
Proof.
  intros H2 Ht H3. unfold jne, jeq in H3. apply negb_true_iff in H3.
  unfold Char.A, Char.H, Char.Z_ in Ht.
  assert (Hc : t = 65 \/ t = 66 \/ t = 67 \/ t = 68 \/ t = 69 \/ t = 70
               \/ t = 71 \/ t = 72 \/ t = 90) by lia.
  unfold_csi. rewrite !idx_if, H2.
  destruct (idx buffer 3) as [y|]; rewrite ?H3;
    repeat (destruct Hc as [->|Hc]); try subst t; reflexivity.
Qed.

Lemma csi_plain_arrow_witness :
  (idx [27; 91; 72; 97] 2 = Some 72
   /\ (Char.A <= 72 <= Char.H \/ 72 = Char.Z_)
   /\ jne (idx [27; 91; 72; 97] 3) Char.semicolon = true)
  /\ decodeXTermCSIFunctionKeys [27; 91; 72; 97]
     = ReturnMaybeMultiple (plainKey (str "home")) 3.
Proof.
  assert (H2 : idx [27; 91; 72; 97] 2 = Some 72) by reflexivity.
  assert (Ht : Char.A <= 72 <= Char.H \/ 72 = Char.Z_)
    by (left; unfold Char.A, Char.H; lia).
  assert (H3 : jne (idx [27; 91; 72; 97] 3) Char.semicolon = true)
    by reflexivity.
  split; [split; [exact H2 | split; [exact Ht | exact H3]]|].
  exact (csi_plain_arrow [27; 91; 72; 97] 72 H2 Ht H3).
Defined.

(** The decoder's names for the function keys and for the edit keys are
    the ones the spec gives. *)
Lemma fname_functionKey (n : Z) :
  -48 <= n <= 216 -> fname (Some n) = functionKey n.
Proof.
  intros Hn. enumerate n; reflexivity.
Qed.

Lemma jsstring_eqb_single (d c : Z) : jsstring_eqb [d] [c] = (d =? c).
Proof.
  unfold jsstring_eqb.
  destruct (list_eq_dec Z.eq_dec [d] [c]) as [E|E], (Z.eqb_spec d c);
    congruence.
Qed.

Lemma editKey_editName (d : Z) : editKey (Some d) = editName d.
Proof.
  unfold editKey, editName, jeq. cbn [find fst snd].
  change (str "2") with [Char.n2]. change (str "3") with [Char.n3].
  change (str "5") with [Char.n5]. change (str "6") with [Char.n6].
  rewrite !jsstring_eqb_single.
  repeat match goal with
         | |- context [d =? ?c] => destruct (d =? c); [reflexivity|]
         end.
  reflexivity.
Qed.

(** The tests in front of the F5..F12 branch fail, from the bytes. *)
Lemma irregular_branch_reached (buffer : Uint8Array) (x d : Z) :
  idx buffer 2 = Some x -> idx buffer 3 = Some d ->
  idx buffer 4 = Some Char.tilde ->
  x <> Char.Z_ -> ~ Char.A <= x <= Char.H ->
  d <> Char.tilde ->
  d = Char.semicolon \/ ~ Char.O < x < Char.O + 5 ->
  (forall n, idx buffer 5 = Some n ->
             ~ Char.O < n < Char.O + 5
             /\ (d = Char.semicolon ->
                 n <> Char.tilde /\ ~ Char.A <= n <= Char.H)) ->
  csiArrowForm buffer = false /\ csiEditForm buffer = false
  /\ csiPlainF1toF4 buffer = false /\ csiModifiedF1toF4 buffer = false.
Proof.
  intros H2 H3 H4 Hz Hah Hd Hps H5.
  unfold csiArrowForm, csiEditForm, csiPlainF1toF4, csiModifiedF1toF4,
    isF1toF4.
  rewrite H2, H3.
  destruct (idx buffer 5) as [n|];
    [destruct (H5 n eq_refl) as [Hn Hs]|]; clear H5;
    unfold jne, jeq, jge, jle, jgt, jlt, jsub, option_map;
    (repeat split; apply not_true_is_false; intros Hc; to_prop Hc;
     char_values; try specialize (Hs ltac:(lia)); lia).
Qed.

(** X23.  A CSI buffer with "~" at index 3, whose third byte is no key by
    itself, is insert for the digit "2", delete for "3", pageup for "5"
    and pagedown for "6", consuming four bytes, and null for every other
    third byte. *)
Theorem csi_edit_key (buffer : Uint8Array) (d : Z) :
  idx buffer 2 = Some d -> csiLetter d = false ->
  idx buffer 3 = Some Char.tilde ->
  decodeXTermCSIFunctionKeys buffer
  = match editName d with
    | Some name => ReturnMaybeMultiple (plainKey name) 4
    | None => ReturnNull
    end.
Proof.
  intros H2 Hd H3. unfold csiLetter in Hd.
  apply orb_false_iff in Hd. destruct Hd as [Hd _].
  rewrite <- editKey_editName.
  unfold decodeXTermCSIFunctionKeys, csiArrowForm, csiEditForm.
  rewrite H2, H3. unfold jeq at 1, jge at 1, jle at 1.
  rewrite Hd. cbn [orb]. unfold jeq at 1. cbn [Z.eqb Char.tilde Char.semicolon
    andb orb Pos.eqb]. unfold jeq at 1. cbn [Z.eqb Char.tilde orb Pos.eqb].
  unfold jeq at 1. cbn [Z.eqb Char.tilde Char.semicolon Pos.eqb].
  reflexivity.
Qed.

Lemma csi_edit_key_witness :
  (idx [27; 91; 53; 126] 2 = Some 53 /\ csiLetter 53 = false
   /\ idx [27; 91; 53; 126] 3 = Some Char.tilde)
  /\ decodeXTermCSIFunctionKeys [27; 91; 53; 126]
     = ReturnMaybeMultiple (plainKey (str "pageup")) 4.
Proof.
  split; [repeat split|].
  exact (csi_edit_key [27; 91; 53; 126] 53 eq_refl eq_refl eq_refl).
Defined.

(** X24.  A CSI buffer with ";" at index 3 and "~" at index 5, whose
    third byte is no key by itself, is insert for the digit "2", delete
    for "3", pageup for "5" and pagedown for "6", with the modifiers of
    the byte at index 4 and consuming six bytes, and null for every other
    third byte. *)
Theorem csi_edit_key_modified (buffer : Uint8Array) (d m : Z) :
  idx buffer 2 = Some d -> csiLetter d = false ->
  idx buffer 3 = Some Char.semicolon -> idx buffer 4 = Some m ->
  idx buffer 5 = Some Char.tilde ->
  decodeXTermCSIFunctionKeys buffer
  = match editName d with
    | Some name => ReturnMaybeMultiple (modifierKeypress name (Some m)) 6
    | None => ReturnNull
    end.
Proof.
  intros H2 Hd H3 H4 H5. unfold csiLetter in Hd.
  apply orb_false_iff in Hd. destruct Hd as [Hd _].
  rewrite <- editKey_editName.
  unfold decodeXTermCSIFunctionKeys, csiArrowForm, csiEditForm.
  rewrite H2, H3, H4, H5. unfold jeq at 1, jge at 1, jle at 1.
  rewrite Hd.
  change (jeq (Some Char.semicolon) Char.semicolon) with true.
  change (jeq (Some Char.semicolon) Char.tilde) with false.
  change (jeq (Some Char.tilde) Char.tilde) with true.
  change (jge (Some Char.tilde) Char.A && jle (Some Char.tilde) Char.H)
    with false.
  reflexivity.
Qed.

Lemma csi_edit_key_modified_witness :
  (idx [27; 91; 54; 59; 50; 126] 2 = Some 54 /\ csiLetter 54 = false
   /\ idx [27; 91; 54; 59; 50; 126] 3 = Some Char.semicolon
   /\ idx [27; 91; 54; 59; 50; 126] 4 = Some 50
   /\ idx [27; 91; 54; 59; 50; 126] 5 = Some Char.tilde)
  /\ decodeXTermCSIFunctionKeys [27; 91; 54; 59; 50; 126]
     = ReturnMaybeMultiple
         (keyEvent (str "pagedown") true false false false) 6.
Proof.
  split; [repeat split|].
  exact (csi_edit_key_modified [27; 91; 54; 59; 50; 126] 54 50
                                eq_refl eq_refl eq_refl eq_refl eq_refl).
Defined.

(** ** The F5..F12 scheme *)

(** C6.  A buffer ESC "[" x d "~" reaches the F5..F12 branch when [x] is
    not "Z" nor in "A".."H", [d] is not "~", [x] is not in "P".."S" unless
    [d] is ";", and the byte at index 5, if there is one, is not in
    "P".."S" and, behind a [d] that is ";", neither "~" nor in "A".."H".
    There, when [x] is "1" the function number is [d - "0"], less one when
    above 5; when [x] is "2" it is [d - "0" + 9], less one when above 10;
    the key is "f" followed by that number and the consumed length is 5;
    any other [x] gives null. *)
Theorem csi_irregular_scheme (up low : jsstring -> jsstring)
        (buffer : Uint8Array) (x d : Z) :
  idx buffer 0 = Some Char.ESC -> idx buffer 1 = Some Char.lbracket ->
  idx buffer 2 = Some x -> idx buffer 3 = Some d ->
  idx buffer 4 = Some Char.tilde ->
  0 <= d <= 255 ->
  x <> Char.Z_ -> ~ Char.A <= x <= Char.H ->
  d <> Char.tilde ->
  d = Char.semicolon \/ ~ Char.O < x < Char.O + 5 ->
  (forall n, idx buffer 5 = Some n ->
             ~ Char.O < n < Char.O + 5
             /\ (d = Char.semicolon ->
                 n <> Char.tilde /\ ~ Char.A <= n <= Char.H)) ->
  decodeXTermCSIFunctionKeys buffer
  = match irregularNumber x d with
    | Some number => ReturnMaybeMultiple (plainKey (functionKey number)) 5
    | None => ReturnNull
    end
  /\ (length buffer = 5%nat ->
      decodeBuffer up low buffer
      = Some match irregularNumber x d with
             | Some number => Events [plainKey (functionKey number)]
             | None => Null
             end).
Proof.
  intros H0 H1 H2 H3 H4 Hbyte Hz Hah Hd Hps H5.
  destruct (irregular_branch_reached buffer x d H2 H3 H4 Hz Hah Hd Hps H5)
    as (Ha & Hb & Hc & He).
  assert (Hr : decodeXTermCSIFunctionKeys buffer
               = match irregularNumber x d with
                 | Some number =>
                   ReturnMaybeMultiple (plainKey (functionKey number)) 5
                 | None => ReturnNull
                 end).
  { unfold decodeXTermCSIFunctionKeys. rewrite Ha, Hb, Hc, He.
    pose proof (idx_Some_lt _ _ _ H4) as Hlen.
    assert (Hl : (length buffer <? 5)%nat = false) by (apply Nat.ltb_ge; lia).
    rewrite Hl, H2, H3, H4. unfold irregularNumber, skipAbove.
    cbn [jeq jne jgt jsub jadd option_map].
    change (Char.tilde =? Char.semicolon) with false.
    change (negb (Char.tilde =? Char.tilde)) with false. cbv beta iota zeta.
    destruct (x =? Char.n1).
    - destruct (5 <? d - Char.n0) eqn:E; cbn [jsub option_map];
      rewrite fname_functionKey
        by (bool2prop; unfold Char.n0 in *; lia); reflexivity.
    - destruct (x =? Char.n2); [|reflexivity].
      destruct (10 <? d - Char.n0 + 9) eqn:E; cbn [jsub option_map];
      rewrite fname_functionKey
        by (bool2prop; unfold Char.n0 in *; lia); reflexivity. }
  split; [exact Hr|].
  intros Hlen. rewrite decodeBuffer_unfold, route_csi, Hr by assumption.
  destruct (irregularNumber x d); cbn [exec]; [|reflexivity].
  unfold maybeMultiple. now rewrite Hlen.
Qed.

Lemma csi_irregular_scheme_witness :
  let buffer := [27; 91; 49; 55; 126] in
  (idx buffer 0 = Some Char.ESC /\ idx buffer 1 = Some Char.lbracket
   /\ idx buffer 2 = Some 49 /\ idx buffer 3 = Some 55
   /\ idx buffer 4 = Some Char.tilde
   /\ 0 <= 55 <= 255
   /\ 49 <> Char.Z_ /\ ~ Char.A <= 49 <= Char.H
   /\ 55 <> Char.tilde
   /\ (55 = Char.semicolon \/ ~ Char.O < 49 < Char.O + 5)
   /\ (forall n, idx buffer 5 = Some n ->
                 ~ Char.O < n < Char.O + 5
                 /\ (55 = Char.semicolon ->
                     n <> Char.tilde /\ ~ Char.A <= n <= Char.H)))
  /\ decodeXTermCSIFunctionKeys buffer
     = ReturnMaybeMultiple (plainKey (str "f6")) 5
  /\ decode buffer = Some (Events [plainKey (str "f6")]).
Proof.
  intros buffer.
  assert (Hb : 0 <= 55 <= 255) by lia.
  assert (Hz : 49 <> Char.Z_) by discriminate.
  assert (Hah : ~ Char.A <= 49 <= Char.H) by (unfold Char.A; lia).
  assert (Hd : 55 <> Char.tilde) by discriminate.
  assert (Hps : 55 = Char.semicolon \/ ~ Char.O < 49 < Char.O + 5)
    by (right; unfold Char.O; lia).
  assert (H5 : forall n, idx buffer 5 = Some n ->
                         ~ Char.O < n < Char.O + 5
                         /\ (55 = Char.semicolon ->
                             n <> Char.tilde /\ ~ Char.A <= n <= Char.H))
    by (intros n Hn; discriminate Hn).
  pose proof (csi_irregular_scheme latin1_toUpperCase latin1_toLowerCase
                buffer 49 55 eq_refl eq_refl eq_refl eq_refl eq_refl
                Hb Hz Hah Hd Hps H5) as (Hr & Hw).
  split.
  - split; [reflexivity|]. split; [reflexivity|]. split; [reflexivity|].
    split; [reflexivity|]. split; [reflexivity|]. split; [exact Hb|].
    split; [exact Hz|]. split; [exact Hah|]. split; [exact Hd|].
    split; [exact Hps | exact H5].
  - split; [exact Hr | exact (Hw eq_refl)].
Defined.

(** Behind the same five bytes, a byte in "P".."S" makes the sequence a
    modified F1..F4, with the tilde read as the modifier. *)
Lemma irregular_form_before_letter :
  decodeXTermCSIFunctionKeys [27; 91; 49; 55; 126; 80]
  = ReturnMaybeMultiple (modifierKeypress (str "f1") (Some Char.tilde)) 6.
Proof. reflexivity. Qed.

(** X17.  The stand-alone decoder reads the first key of a chunk only: on
    a buffer that starts with a byte other than ESC and CAN, and has no
    ESC at index 3, it returns what it returns on the first byte alone. *)
Theorem standalone_first_key_only (b : Z) (rest : Uint8Array) :
  b <> Char.ESC -> b <> Char.CANCEL ->
  idx (b :: rest) 3 <> Some Char.ESC ->
  Standalone.decodeBuffer (b :: rest) = Standalone.decodeBuffer [b].
Proof.
  intros He Hc H3.
  assert (E3 : jeq (idx (b :: rest) 3) Char.ESC = false).
  { destruct (idx (b :: rest) 3) as [y|]; [|reflexivity].
    cbn [jeq]. apply Z.eqb_neq. congruence. }
  unfold Standalone.decodeBuffer, Standalone.decodeAscii.
  rewrite E3. change (idx (b :: rest) 0) with (Some b).
  change (idx [b] 0) with (Some b). cbn [jeq jlt].
  replace (b =? Char.ESC) with false by (symmetry; now apply Z.eqb_neq).
  replace (b =? Char.CANCEL) with false by (symmetry; now apply Z.eqb_neq).
  rewrite !andb_false_r. cbn [andb orb Nat.add].
  change (idx (b :: rest) 0) with (Some b).
  change (idx [b] 0) with (Some b). reflexivity.
Qed.

Lemma standalone_first_key_only_witness :
  (97 <> Char.ESC /\ 97 <> Char.CANCEL
   /\ idx [97; 98; 99] 3 <> Some Char.ESC)
  /\ Standalone.decodeBuffer [97; 98; 99] = Standalone.decodeBuffer [97].
Proof.
  assert (He : 97 <> Char.ESC) by discriminate.
  assert (Hc : 97 <> Char.CANCEL) by discriminate.
  assert (H3 : idx [97; 98; 99] 3 <> Some Char.ESC) by discriminate.
  split; [split; [exact He | split; [exact Hc | exact H3]]|].
  exact (standalone_first_key_only 97 [98; 99] He Hc H3).
Defined.

